(** * Email-open tracking of the Mystery Order notifier

    A shallow embedding of the tracking code of the Apps Script project
    (Email.gs, UI.gs, Core.gs; Code.js holds the same functions in one file):

    - [recordTrackingId], [generateTrackingPixel], [sendNotificationEmail]
      and [getEmailStats] of Email.gs,
    - [doGet] and [recordEmailOpen] of UI.gs,
    - [isValidEmail] and the [CONFIG] constants of Core.gs.

    The tracking sheet is a list of rows, row 0 being the header; a cell
    holds what [getValues] can return (a string, a number, a boolean or a
    date).  The clock ([new Date()]) and the token source
    ([Utilities.getUuid()]) are arguments of the functions that read them.
    The spreadsheet, mail and template services are taken to answer (their
    own failures are not modelled) and [Logger.log] is left out.

    Numbers are integers: every number the code writes to the sheet is 0 or
    a count plus one, on which double arithmetic is exact below 2^53.  A
    statement on a count read from the sheet, or on a sum of such counts,
    holds that count or sum within [MAX_SAFE_INTEGER], where the integer
    sum is the sum of the doubles.  The two ratios of [getEmailStats] are
    computed in IEEE binary64 as the script does. *)

From Stdlib Require Import ZArith SpecFloat Ascii String.
From stdpp Require Import gmap strings list pretty relations.

(** ** Values of the script *)

(** What a sheet cell (and a field of a seller row) can hold.  An empty
    cell is the empty string. *)
Inductive cell : Type :=
  | CStr (s : string)
  | CNum (n : Z)
  | CBool (b : bool)
  | CDate (t : Z).

#[global] Instance cell_eq_dec : EqDecision cell.
Proof. solve_decision. Defined.

(** A number that may be NaN (the result of [Number(..)] or of a date
    conversion). *)
Inductive number : Type :=
  | Num (z : Z)
  | NaN.

(** [Number.MAX_SAFE_INTEGER]: the doubles hold every integer from its
    opposite to it, and its successor, so that a sum of integers that stays
    within it is the sum that the script computes. *)
Definition MAX_SAFE_INTEGER : Z := 2 ^ 53 - 1.

(** Conversions that the script leaves to the host (the JavaScript engine
    and the time zone of the project). *)
Record Host : Type := {
  (** [d.toString()] of a date with time value [t] *)
  date_toString : Z -> string;
  (** [Number(s)] of a string *)
  string_toNumber : string -> number;
  (** time value of [new Date(s)] for a string, NaN for an invalid date *)
  date_parse : string -> number;
  (** time value after [d.setDate(d.getDate() - 7)] *)
  week_before : Z -> Z;
  (** [x.toString()] of a double of magnitude 1e21 or more *)
  exp_toString : spec_float -> string
}.

Definition truthy (c : cell) : bool :=
  match c with
  | CStr s => negb (bool_decide (s = EmptyString))
  | CNum n => negb (n =? 0)%Z
  | CBool b => b
  | CDate _ => true
  end.

(** [a || b] *)
Definition js_or (a b : cell) : cell := if truthy a then a else b.

(** [c === s] for a string [s]: no conversion, so only a string cell can
    be equal. *)
Definition strict_eq_string (c : cell) (s : string) : bool :=
  match c with
  | CStr s' => bool_decide (s' = s)
  | _ => false
  end.

Section Conversions.
Context (H : Host).

(** [String(c)], as in a template literal *)
Definition js_toString (c : cell) : string :=
  match c with
  | CStr s => s
  | CNum n => pretty n
  | CBool b => if b then "true" else "false"
  | CDate t => date_toString H t
  end.

(** [c + 1]: addition on numbers and booleans, concatenation on strings
    and dates.  The integer sum is the double that the script writes for a
    number within [MAX_SAFE_INTEGER]; past it the double is rounded. *)
Definition js_plus_one (c : cell) : cell :=
  match c with
  | CNum n => CNum (n + 1)
  | CBool b => CNum (Z.b2z b + 1)
  | CStr s => CStr (s +:+ "1")
  | CDate t => CStr (date_toString H t +:+ "1")
  end.

(** [Number(c)] *)
Definition js_Number (c : cell) : number :=
  match c with
  | CNum n => Num n
  | CBool b => Num (Z.b2z b)
  | CStr s => string_toNumber H s
  | CDate t => Num t
  end.

(** time value of [new Date(c)] *)
Definition js_Date (c : cell) : number :=
  match c with
  | CDate t => Num t
  | CNum n => if (Z.abs n <=? 8640000000000000)%Z then Num n else NaN
  | CBool b => Num (Z.b2z b)
  | CStr s => date_parse H s
  end.
End Conversions.

(** [a + b] on numbers.  The integer sum is the double that the script
    computes while it stays within [MAX_SAFE_INTEGER]; past it the double
    is rounded. *)
Definition number_add (a b : number) : number :=
  match a, b with
  | Num x, Num y => Num (x + y)
  | _, _ => NaN
  end.

(** ** Doubles, for the two ratios of the statistics *)

Definition prec : Z := 53.
Definition emax : Z := 1024.

(** The double nearest to an integer. *)
Definition double_of_Z (n : Z) : spec_float := binary_normalize prec emax n 0 false.

Definition double_of_number (x : number) : spec_float :=
  match x with
  | Num z => double_of_Z z
  | NaN => S754_nan
  end.

Definition double_div : spec_float -> spec_float -> spec_float := SFdiv prec emax.
Definition double_mul : spec_float -> spec_float -> spec_float := SFmul prec emax.

(** The digits of [n] with a point before the last two, as step 10 of
    [Number.prototype.toFixed] builds them for two fraction digits. *)
Definition two_decimals (n : Z) : string :=
  let m := pretty n in
  let m := if (String.length m <=? 2)%nat
           then String.concat EmptyString (replicate (3 - String.length m) "0") +:+ m
           else m in
  let k := String.length m in
  String.substring 0 (k - 2) m +:+ "." +:+ String.substring (k - 2) 2 m.

(** [x.toFixed(2)]: the integer [n] nearest to [100 * x], the larger one
    on a tie, printed with two decimals. *)
Definition toFixed2 (H : Host) (x : spec_float) : string :=
  match x with
  | S754_nan => "NaN"
  | S754_infinity s => if s then "-Infinity" else "Infinity"
  | S754_zero _ => "0.00"
  | S754_finite s m e =>
      let big := if (0 <=? e)%Z
                 then (10 ^ 21 <=? Z.pos m * 2 ^ e)%Z
                 else (10 ^ 21 <=? Z.pos m / 2 ^ (- e))%Z in
      let n := if (0 <=? e)%Z
               then (Z.pos m * 2 ^ e * 100)%Z
               else ((2 * (Z.pos m * 100) + 2 ^ (- e)) / (2 * 2 ^ (- e)))%Z in
      (if s then "-" else EmptyString) +:+
      (if big then exp_toString H (S754_finite false m e) else two_decimals n)
  end.

(** ** Strings: [split], [trim] and the address pattern *)

(** [s.split(sep)] for a one-character separator *)
Fixpoint split_on (sep : ascii) (s : string) : list string :=
  match s with
  | EmptyString => [EmptyString]
  | String c rest =>
      if Ascii.eqb c sep then EmptyString :: split_on sep rest
      else match split_on sep rest with
           | x :: xs => String c x :: xs
           | [] => [String c EmptyString]
           end
  end.

(** The class [\s] on code units below 256: tab, line feed, vertical tab,
    form feed, carriage return, space and no-break space. *)
Definition is_space (c : ascii) : bool :=
  let n := nat_of_ascii c in
  ((9 <=? n) && (n <=? 13) || (n =? 32) || (n =? 160))%nat.

Fixpoint trim_start (s : string) : string :=
  match s with
  | String c rest => if is_space c then trim_start rest else s
  | EmptyString => EmptyString
  end.

Fixpoint trim_end (s : string) : string :=
  match s with
  | EmptyString => EmptyString
  | String c rest =>
      match trim_end rest with
      | EmptyString => if is_space c then EmptyString else String c EmptyString
      | rest' => String c rest'
      end
  end.

(** [s.trim()] *)
Definition trim (s : string) : string := trim_end (trim_start s).

(** Regular expressions, matched by derivatives. *)
Inductive regex : Type :=
  | Rnone
  | Reps
  | Rclass (p : ascii -> bool)
  | Rcat (r1 r2 : regex)
  | Ralt (r1 r2 : regex)
  | Rstar (r : regex).

Definition Rplus (r : regex) : regex := Rcat r (Rstar r).

Fixpoint nullable (r : regex) : bool :=
  match r with
  | Rnone => false
  | Reps => true
  | Rclass _ => false
  | Rcat r1 r2 => nullable r1 && nullable r2
  | Ralt r1 r2 => nullable r1 || nullable r2
  | Rstar _ => true
  end.

Fixpoint deriv (c : ascii) (r : regex) : regex :=
  match r with
  | Rnone => Rnone
  | Reps => Rnone
  | Rclass p => if p c then Reps else Rnone
  | Rcat r1 r2 =>
      if nullable r1 then Ralt (Rcat (deriv c r1) r2) (deriv c r2)
      else Rcat (deriv c r1) r2
  | Ralt r1 r2 => Ralt (deriv c r1) (deriv c r2)
  | Rstar r1 => Rcat (deriv c r1) (Rstar r1)
  end.

(** [/^r$/.test(s)] *)
Fixpoint regex_test (r : regex) (s : string) : bool :=
  match s with
  | EmptyString => nullable r
  | String c rest => regex_test (deriv c r) rest
  end.

Definition is_char (n : nat) (c : ascii) : bool := (nat_of_ascii c =? n)%nat.

(** [[^\s@]] *)
Definition not_space_at (c : ascii) : bool := negb (is_space c || is_char 64 c).

(** [/^[^\s@]+@[^\s@]+\.[^\s@]+$/] *)
Definition emailRegex : regex :=
  Rcat (Rplus (Rclass not_space_at))
    (Rcat (Rclass (is_char 64))
      (Rcat (Rplus (Rclass not_space_at))
        (Rcat (Rclass (is_char 46))
          (Rplus (Rclass not_space_at))))).

(** Core.gs, [isValidEmail], on a string (the caller passes the pieces of
    a [split]). *)
Definition isValidEmail (email : string) : bool :=
  if bool_decide (email = EmptyString) then false
  else regex_test emailRegex email.

(** ** Configuration (Core.gs, [CONFIG]) *)

Module CONFIG.
Definition EMAIL_SENDER_NAME : string := "Back Market Quality Team".
Definition EMAIL_SENDER_ADDRESS : string := "yuho.suzuki@backmarket.com".
Definition TRACKING_SHEET_NAME : string := "Mystery Email Tracking".
Definition WEB_APP_URL : string :=
  "https://script.google.com/macros/s/AKfycbyZTRbYV2UJz0MtQWIOS4uilC87fUWuOUoNM5Lj7QOiR3dP5cUqviREKN9FbH6xeBg-PQ/exec".
End CONFIG.

(** ** The tracking sheet *)

(** One row of the sheet, by the seven columns of its header. *)
Record row : Type := Row {
  TrackingID : cell;
  Email : cell;
  SellerID : cell;
  SendDate : cell;
  OpenDate : cell;
  Opened : cell;
  Views : cell
}.

#[global] Instance row_eq_dec : EqDecision row.
Proof. solve_decision. Defined.

(** The spreadsheet as far as tracking goes: [None] when it has no sheet
    named [CONFIG.TRACKING_SHEET_NAME], else the rows of that sheet. *)
Abbreviation store := (option (list row)).

Definition header : row :=
  Row (CStr "Tracking ID") (CStr "Email") (CStr "Seller ID") (CStr "Send Date")
      (CStr "Open Date") (CStr "Opened") (CStr "Views").

Definition blank_row : row :=
  let e := CStr EmptyString in Row e e e e e e e.

(** [sheet.getDataRange().getValues()]: the rows, and one blank row for a
    sheet with no content. *)
Definition getValues (sh : list row) : list row :=
  match sh with
  | [] => [blank_row]
  | _ => sh
  end.

(** Column [c] (counted from 1) of a row replaced. *)
Definition set_column (c : nat) (v : cell) (r : row) : row :=
  match c with
  | 1 => Row v (Email r) (SellerID r) (SendDate r) (OpenDate r) (Opened r) (Views r)
  | 2 => Row (TrackingID r) v (SellerID r) (SendDate r) (OpenDate r) (Opened r) (Views r)
  | 3 => Row (TrackingID r) (Email r) v (SendDate r) (OpenDate r) (Opened r) (Views r)
  | 4 => Row (TrackingID r) (Email r) (SellerID r) v (OpenDate r) (Opened r) (Views r)
  | 5 => Row (TrackingID r) (Email r) (SellerID r) (SendDate r) v (Opened r) (Views r)
  | 6 => Row (TrackingID r) (Email r) (SellerID r) (SendDate r) (OpenDate r) v (Views r)
  | 7 => Row (TrackingID r) (Email r) (SellerID r) (SendDate r) (OpenDate r) (Opened r) v
  | _ => r
  end.

(** [sheet.getRange(r, c).setValue(v)], rows and columns counted from 1. *)
Inductive write : Type :=
  | SetValue (r c : nat) (v : cell).

Definition apply_write (w : write) (sh : list row) : list row :=
  match w with
  | SetValue (S i) c v => alter (set_column c v) i sh
  | SetValue 0 _ _ => sh
  end.

Definition apply_writes (ws : list write) (sh : list row) : list row :=
  foldl (fun s w => apply_write w s) sh ws.

(** [sheet.appendRow(r)] *)
Definition appendRow (r : row) (sh : list row) : list row := sh ++ [r].

(** ** Email.gs: issuing a token *)

(** [recordTrackingId(trackingId, email, sellerId)] at time [now]. *)
Definition recordTrackingId (now : Z) (trackingId : string) (email sellerId : cell)
    (st : store) : store :=
  let trackingSheet :=
    match st with
    | Some sh => sh
    | None => appendRow header []
    end in
  Some (appendRow
          (Row (CStr trackingId) email sellerId (CDate now)
               (CStr EmptyString) (CStr "No") (CNum 0))
          trackingSheet).

Definition dquote : string := String (ascii_of_nat 34) EmptyString.

(** The image markup around a tracking URL. *)
Definition pixel_markup (trackingUrl : string) : string :=
  "<img src=" +:+ dquote +:+ trackingUrl +:+ dquote +:+
  " width=" +:+ dquote +:+ "1" +:+ dquote +:+
  " height=" +:+ dquote +:+ "1" +:+ dquote +:+
  " alt=" +:+ dquote +:+ dquote +:+
  " style=" +:+ dquote +:+ "display:none" +:+ dquote +:+ ">".

(** [generateTrackingPixel(sellerEmail, sellerId)], where [uuid] is what
    [Utilities.getUuid()] returns. *)
Definition generateTrackingPixel (uuid : string) (now : Z) (sellerEmail sellerId : cell)
    (st : store) : store * string :=
  let trackingId := uuid in
  let st' := recordTrackingId now trackingId sellerEmail sellerId st in
  let trackingUrl := CONFIG.WEB_APP_URL +:+ "?id=" +:+ trackingId +:+ "&action=open" in
  (st', pixel_markup trackingUrl).

(** ** Email.gs: sending a notification *)

(** What [extractRowData] reads off a seller row. *)
Record rowData : Type := {
  sellerId : cell;
  sellerName : cell;
  sellerEmail : cell;
  result : cell;
  reportLink : cell
}.

(** One call of [GmailApp.sendEmail]. *)
Record mail : Type := {
  mail_to : string;
  mail_subject : string;
  mail_body : string;
  mail_htmlBody : string;
  mail_name : string;
  mail_replyTo : string
}.

Record world : Type := {
  tracking : store;
  outbox : list mail
}.

Section Sending.
Context (H : Host).

(** The loop over the recipients: the mails sent, in order, and
    [successCount]. *)
Fixpoint send_each (data : rowData) (subject htmlForEmail : string)
    (emailAddresses : list string) : list mail * Z :=
  match emailAddresses with
  | [] => ([], 0%Z)
  | email :: rest =>
      let '(sent, successCount) := send_each data subject htmlForEmail rest in
      if isValidEmail email then
        ({| mail_to := email;
            mail_subject := subject;
            mail_body := "Mystery Order Test Result for " +:+ js_toString H (sellerName data)
                         +:+ ". Please view this email in HTML format for complete information.";
            mail_htmlBody := htmlForEmail;
            mail_name := CONFIG.EMAIL_SENDER_NAME;
            mail_replyTo := CONFIG.EMAIL_SENDER_ADDRESS |} :: sent,
         (successCount + 1)%Z)
      else (sent, successCount)
  end.

(** [sendNotificationEmail(htmlTemplate, data, subject)], where [content]
    is what [htmlTemplate.evaluate().getContent()] returns for [data].
    [split] exists on strings only: on another value the call raises,
    which the [catch] turns into [false], after the tracking row was
    written. *)
Definition sendNotificationEmail (uuid : string) (now : Z) (content : string)
    (data : rowData) (subject : string) (w : world) : world * bool :=
  let htmlForEmail := content in
  let '(st', trackingPixel) :=
    generateTrackingPixel uuid now (sellerEmail data) (sellerId data) (tracking w) in
  let htmlForEmail := htmlForEmail +:+ trackingPixel in
  match sellerEmail data with
  | CStr s =>
      let emailAddresses := map trim (split_on "," s) in
      let '(sent, successCount) := send_each data subject htmlForEmail emailAddresses in
      ({| tracking := st'; outbox := outbox w ++ sent |}, (0 <? successCount)%Z)
  | _ => ({| tracking := st'; outbox := outbox w |}, false)
  end.
End Sending.

(** ** UI.gs: the open recorder *)

Section Recorder.
Context (H : Host).

(** The loop of [recordEmailOpen] over [data[i..]]: the [setValue] calls
    it makes for the first row whose token is [trackingId], then it
    breaks. *)
Fixpoint open_writes (now : Z) (trackingId : string) (i : nat) (rows : list row)
    : list write :=
  match rows with
  | [] => []
  | r :: rest =>
      if strict_eq_string (TrackingID r) trackingId then
        if strict_eq_string (Opened r) "No" then
          [SetValue (i + 1) 5 (CDate now); SetValue (i + 1) 6 (CStr "Yes")]
        else
          let currentViews := js_or (Views r) (CNum 0) in
          [SetValue (i + 1) 7 (js_plus_one H currentViews)]
      else open_writes now trackingId (S i) rest
  end.

(** [recordEmailOpen(trackingId)] at time [now]: all reads are from the
    snapshot [data], taken before the first write. *)
Definition recordEmailOpen (now : Z) (trackingId : string) (st : store) : store :=
  match st with
  | None => None
  | Some trackingSheet =>
      let data := getValues trackingSheet in
      Some (apply_writes (open_writes now trackingId 1 (drop 1 data)) trackingSheet)
  end.

Inductive MimeType : Type := IMAGE | TEXT.

(** [ContentService.createTextOutput(content).setMimeType(mime)] *)
Record TextOutput : Type := {
  content : string;
  mimeType : MimeType
}.

(** The body of the answer: GIF89a, a 1 by 1 screen, one transparent
    pixel. *)
Definition gif_bytes : list nat :=
  [71; 73; 70; 56; 57; 97; 1; 0; 1; 0; 128; 0; 0; 0; 0; 0; 0; 0; 0;
   33; 249; 4; 1; 0; 0; 0; 0; 44; 0; 0; 0; 0; 1; 0; 1; 0; 0; 2; 2; 68; 1; 0; 59].

Definition gif : TextOutput :=
  {| content := string_of_list_ascii (map ascii_of_nat gif_bytes); mimeType := IMAGE |}.

(** [p === s] and the truth value of [p], for a query parameter [p]: a
    string, or [undefined] when the query does not have it. *)
Definition param_is (p : option string) (s : string) : bool :=
  match p with
  | Some x => bool_decide (x = s)
  | None => false
  end.

Definition param_truthy (p : option string) : bool :=
  match p with
  | Some x => truthy (CStr x)
  | None => false
  end.

(** [doGet(e)] at time [now], on [e.parameter].  Nothing in the body can
    raise here, so the answer of the [catch] (the text [Error]) does not
    occur. *)
Definition doGet (now : Z) (parameter : gmap string string) (st : store)
    : store * TextOutput :=
  let trackingId := parameter !! "id" in
  let action := parameter !! "action" in
  let st' :=
    if param_is action "open" && param_truthy trackingId then
      match trackingId with
      | Some id => recordEmailOpen now id st
      | None => st
      end
    else st in
  (st', gif).
End Recorder.

(** ** Email.gs: statistics *)

Record stats : Type := {
  totalEmails : Z;
  openedEmails : Z;
  openRate : string;
  totalViews : number;
  averageViews : cell;
  lastWeekEmails : Z;
  lastWeekOpened : Z;
  lastWeekOpenRate : string
}.

Inductive stats_result : Type :=
  | StatsError (error : string)
  | StatsOk (s : stats).

(** The four counters of the loop of [getEmailStats]. *)
Record counters : Type := {
  c_openedEmails : Z;
  c_totalViews : number;
  c_lastWeekEmails : Z;
  c_lastWeekOpened : Z
}.

Section Statistics.
Context (H : Host).

(** One turn of the loop, on row [r]. *)
Definition count_row (oneWeekAgo : Z) (c : counters) (r : row) : counters :=
  let sendDate := js_Date H (SendDate r) in
  let isOpened := strict_eq_string (Opened r) "Yes" in
  let c1 :=
    if isOpened then
      {| c_openedEmails := c_openedEmails c + 1;
         c_totalViews := number_add (c_totalViews c) (js_Number H (js_or (Views r) (CNum 1)));
         c_lastWeekEmails := c_lastWeekEmails c;
         c_lastWeekOpened := c_lastWeekOpened c |}
    else c in
  let recent :=
    match sendDate with
    | Num t => (oneWeekAgo <? t)%Z
    | NaN => false
    end in
  if recent then
    {| c_openedEmails := c_openedEmails c1;
       c_totalViews := c_totalViews c1;
       c_lastWeekEmails := c_lastWeekEmails c1 + 1;
       c_lastWeekOpened := if isOpened then c_lastWeekOpened c1 + 1 else c_lastWeekOpened c1 |}
  else c1.

(** [(a / b * 100).toFixed(2)] when [b > 0], else the number 0. *)
Definition percentage (a b : Z) : cell :=
  if (0 <? b)%Z
  then CStr (toFixed2 H (double_mul (double_div (double_of_Z a) (double_of_Z b))
                                    (double_of_Z 100)))
  else CNum 0.

(** [getEmailStats()] at time [now]. *)
Definition getEmailStats (now : Z) (st : store) : stats_result :=
  match st with
  | None =>
      StatsError "Tracking sheet not found. It will be created automatically after emails are sent."
  | Some trackingSheet =>
      let data := getValues trackingSheet in
      if (length data <=? 1)%nat then
        StatsError "No tracking data available. Statistics will appear after emails are sent."
      else
        let totalEmails := (Z.of_nat (length data) - 1)%Z in
        let oneWeekAgo := week_before H now in
        let c := foldl (count_row oneWeekAgo)
                       {| c_openedEmails := 0; c_totalViews := Num 0;
                          c_lastWeekEmails := 0; c_lastWeekOpened := 0 |}
                       (drop 1 data) in
        let openRate := percentage (c_openedEmails c) totalEmails in
        let lastWeekOpenRate := percentage (c_lastWeekOpened c) (c_lastWeekEmails c) in
        let avgViews :=
          if (0 <? c_openedEmails c)%Z
          then CStr (toFixed2 H (double_div (double_of_number (c_totalViews c))
                                            (double_of_Z (c_openedEmails c))))
          else CNum 0 in
        StatsOk {| totalEmails := totalEmails;
                   openedEmails := c_openedEmails c;
                   openRate := js_toString H openRate +:+ "%";
                   totalViews := c_totalViews c;
                   averageViews := avgViews;
                   lastWeekEmails := c_lastWeekEmails c;
                   lastWeekOpened := c_lastWeekOpened c;
                   lastWeekOpenRate := js_toString H lastWeekOpenRate +:+ "%" |}
  end.
End Statistics.

(** ** Executions that overlap *)

(** An execution of [recordEmailOpen] reads the sheet once ([getValues])
    and makes its [setValue] calls afterwards, one by one.  The script
    takes no lock, so the calls of executions that run at the same time
    interleave: each read and each write below is one step. *)
Inductive thread : Type :=
  | Waiting (now : Z) (trackingId : string)
  | Writing (ws : list write).

(** [Waiting]: called, the sheet not read yet.  [Writing ws]: the sheet
    read, the writes [ws] still to make; [Writing []] has returned. *)
Inductive step (H : Host) : list row * list thread → list row * list thread → Prop :=
  | step_read sh ts1 ts2 now id :
      step H (sh, ts1 ++ Waiting now id :: ts2)
             (sh, ts1 ++ Writing (open_writes H now id 1 (drop 1 (getValues sh))) :: ts2)
  | step_write sh ts1 ts2 w ws :
      step H (sh, ts1 ++ Writing (w :: ws) :: ts2)
             (apply_write w sh, ts1 ++ Writing ws :: ts2).

Definition is_done (t : thread) : bool :=
  match t with
  | Writing [] => true
  | _ => false
  end.

Definition finished (ts : list thread) : Prop := Forall (λ t, is_done t = true) ts.

(** ** Vocabulary of the statements *)

(** Row [i] (counted from 0, the header being row 0) is the first data row
    whose token is [id]. *)
Definition first_hit (id : string) (sh : list row) (i : nat) (r : row) : Prop :=
  1 ≤ i ∧ sh !! i = Some r ∧ TrackingID r = CStr id ∧
  ∀ j r', 1 ≤ j < i → sh !! j = Some r' → TrackingID r' ≠ CStr id.

(** No data row has the token [id]. *)
Definition no_hit (id : string) (sh : list row) : Prop :=
  ∀ j r, 1 ≤ j → sh !! j = Some r → TrackingID r ≠ CStr id.

(** The first open of a row, and a later view of it. *)
Definition mark_opened (now : Z) (r : row) : row :=
  set_column 6 (CStr "Yes") (set_column 5 (CDate now) r).

Definition add_view (H : Host) (r : row) : row :=
  set_column 7 (js_plus_one H (js_or (Views r) (CNum 0))) r.

(** What one hit does to the row it finds. *)
Definition open_row (H : Host) (now : Z) (r : row) : row :=
  if strict_eq_string (Opened r) "No" then mark_opened now r else add_view H r.

(** The writes of the loop body at index [i], on the snapshot row [r]. *)
Definition row_writes (H : Host) (now : Z) (i : nat) (r : row) : list write :=
  if strict_eq_string (Opened r) "No" then
    [SetValue (i + 1) 5 (CDate now); SetValue (i + 1) 6 (CStr "Yes")]
  else [SetValue (i + 1) 7 (js_plus_one H (js_or (Views r) (CNum 0)))].

(** The query [?id=tok&action=open] of the tracking URL. *)
Definition open_request (tok : string) : gmap string string :=
  <["id" := tok]> (<["action" := "open"]> ∅).

(** [times] successive hits of the tracking URL of [tok], one at each time. *)
Fixpoint hits (H : Host) (tok : string) (times : list Z) (st : store) : store :=
  match times with
  | [] => st
  | now :: rest => hits H tok rest (doGet H now (open_request tok) st).1
  end.

(** Any requests, one after the other: the spreadsheet before the first
    request and after each. *)
Fixpoint trace (H : Host) (reqs : list (Z * gmap string string)) (st : store)
    : list store :=
  st :: match reqs with
        | [] => []
        | (now, e) :: rest => trace H rest (doGet H now e st).1
        end.

(** Row [i] of the tracking sheet, if there is one. *)
Definition row_at (st : store) (i : nat) : option row :=
  match st with
  | Some sh => sh !! i
  | None => None
  end.

(** The [Opened] cell is one of the two words the code writes. *)
Definition opened_ok (r : row) : Prop := Opened r = CStr "No" ∨ Opened r = CStr "Yes".

(** The [Views] cell holds a number. *)
Definition views_num (r : row) : Prop := ∃ v, Views r = CNum v.

(** The view count of a row, 0 for a cell with no number. *)
Definition viewCount (r : row) : Z :=
  match Views r with
  | CNum v => v
  | _ => 0%Z
  end.

(** How one request can change a row: not at all, by its first open, or by
    one more view of an opened row. *)
Definition row_step (r r' : row) : Prop :=
  r' = r
  ∨ (Opened r = CStr "No" ∧ Opened r' = CStr "Yes" ∧ Views r' = Views r)
  ∨ (Opened r = CStr "Yes" ∧ Opened r' = CStr "Yes"
     ∧ Views r' = CNum (viewCount r + 1)).

(** Request [j] of a run marks row [i] opened. *)
Definition flips (tr : list store) (i j : nat) : Prop :=
  ∃ a b ra rb, tr !! j = Some a ∧ tr !! S j = Some b
    ∧ row_at a i = Some ra ∧ row_at b i = Some rb
    ∧ Opened ra = CStr "No" ∧ Opened rb = CStr "Yes".

(** A [Views] cell as the code leaves it: a count, or blank. *)
Definition views_ok (r : row) : Prop :=
  (∃ v, Views r = CNum v ∧ (0 ≤ v)%Z) ∨ Views r = CStr EmptyString.

(** Every data row of the tracking sheet has [Yes] or [No] in [Opened] and
    a count or a blank in [Views]. *)
Definition sheet_ok (st : store) : Prop :=
  ∀ sh r, st = Some sh → r ∈ drop 1 sh → opened_ok r ∧ views_ok r.

(** The views of a list of [Views] cells, each counted as the larger of its
    count and 1. *)
Fixpoint sum_max (cs : list cell) : Z :=
  match cs with
  | [] => 0
  | c :: rest => (Z.max (match c with CNum v => v | _ => 0 end) 1 + sum_max rest)%Z
  end.

(** The rows with [Opened = Yes]. *)
Definition opened_rows (rs : list row) : list row :=
  filter (λ r, Opened r = CStr "Yes") rs.

(** The sum, over the opened rows, of the larger of the view count and 1. *)
Definition sum_max_views (rs : list row) : Z := sum_max (Views <$> opened_rows rs).

(** The rows that [recordTrackingId] appends to: those of the tracking
    sheet, or the header it writes to the sheet it creates. *)
Definition rows_or_header (st : store) : list row :=
  match st with
  | Some sh => sh
  | None => [header]
  end.

(** The row written for a token. *)
Definition new_record (uuid : string) (now : Z) (email sellerId : cell) : row :=
  Row (CStr uuid) email sellerId (CDate now) (CStr EmptyString) (CStr "No") (CNum 0).

(** The tracking URL of a token. *)
Definition tracking_url (uuid : string) : string :=
  CONFIG.WEB_APP_URL +:+ "?id=" +:+ uuid +:+ "&action=open".

Definition valid_addresses (s : string) : list string :=
  filter (λ a, isValidEmail a = true) (map trim (split_on "," s)).

Fixpoint count_done (ts : list thread) : nat :=
  match ts with
  | [] => 0
  | t :: rest => (if is_done t then 1 else 0) + count_done rest
  end.

(** The hits at times [nows] of the tracking URL of [tok], all started. *)
Definition started (tok : string) (nows : list Z) : list thread :=
  (λ now, Waiting now tok) <$> nows.

(** The same hits one after the other, each to its end. *)
Definition serial (H : Host) (tok : string) (nows : list Z) (sh : list row) : list row :=
  foldl (λ s now, apply_writes (open_writes H now tok 1 (drop 1 (getValues s))) s) sh nows.

(** What an execution for [tok] can be while row [i] is the row of [tok]:
    not started; about to write the open date and then [Yes]; about to
    write [Yes]; about to write a view count [w]; or returned.  A view
    count was read from an opened row, and is at most the number [d] of
    executions that have returned. *)
Definition thread_ok (tok : string) (i : nat) (r : row) (d : nat) (t : thread) : Prop :=
  (∃ now, t = Waiting now tok)
  ∨ (∃ now, t = Writing [SetValue (i + 1) 5 (CDate now); SetValue (i + 1) 6 (CStr "Yes")])
  ∨ t = Writing [SetValue (i + 1) 6 (CStr "Yes")]
  ∨ (∃ w, t = Writing [SetValue (i + 1) 7 (CNum w)]
          ∧ (1 ≤ w ≤ Z.of_nat d)%Z ∧ Opened r = CStr "Yes")
  ∨ (t = Writing [] ∧ Opened r = CStr "Yes").

(** What holds of the sheet and the executions all along a run of hits of
    [tok], [i] being the row of [tok]. *)
Definition race_inv (tok : string) (i : nat) (c : list row * list thread) : Prop :=
  ∃ r v, first_hit tok c.1 i r ∧ opened_ok r ∧ Views r = CNum v ∧ (0 ≤ v)%Z
    ∧ (Opened r = CStr "No" → v = 0%Z)
    ∧ (Opened r = CStr "Yes" → (v + 1 ≤ Z.of_nat (count_done c.2))%Z)
    ∧ Forall (thread_ok tok i r (count_done c.2)) c.2.

(** ** Examples *)

Definition host0 : Host :=
  {| date_toString := λ t, "date " +:+ pretty t;
     string_toNumber := λ _, NaN;
     date_parse := λ _, NaN;
     week_before := λ t, (t - 604800000)%Z;
     exp_toString := λ _, "1e+21" |}.

Definition record0 (tok opened : string) (views : Z) : row :=
  Row (CStr tok) (CStr "a@x.com") (CStr "S1") (CDate 1000) (CStr EmptyString)
      (CStr opened) (CNum views).

Definition sheet0 : list row := [header; record0 "tok-1" "No" 0; record0 "tok-2" "Yes" 2].

Definition requests0 : list (Z * gmap string string) :=
  [(10%Z, open_request "tok-1"); (20%Z, open_request "tok-1")].

(** The scenario of ten records, four of them opened: one with three
    further views, three with none. *)
Definition sheet10 : list row :=
  [header;
   record0 "t1" "Yes" 3; record0 "t2" "Yes" 0; record0 "t3" "No" 0;
   record0 "t4" "Yes" 0; record0 "t5" "No" 0; record0 "t6" "No" 0;
   record0 "t7" "Yes" 0; record0 "t8" "No" 0; record0 "t9" "No" 0;
   record0 "t10" "No" 0].

Definition data0 : rowData :=
  {| sellerId := CStr "S1"; sellerName := CStr "Shop"; sellerEmail := CStr "a@x.com, b@x.com";
     result := CStr "Passed"; reportLink := CStr "https://example.org/report" |}.

Definition world0 : world := {| tracking := Some [header]; outbox := [] |}.

(** Two hits that both read the sheet before either writes. *)
Definition sheet_raced : list row :=
  [header;
   Row (CStr "tok-1") (CStr "a@x.com") (CStr "S1") (CDate 1000)
       (CDate 20) (CStr "Yes") (CNum 0);
   record0 "tok-2" "Yes" 2].

(** ** What the address pattern accepts *)

(** The strings that a regular expression matches. *)
Inductive matches : regex → string → Prop :=
  | matches_eps : matches Reps EmptyString
  | matches_class p c : p c = true → matches (Rclass p) (String c EmptyString)
  | matches_cat r1 r2 s1 s2 :
      matches r1 s1 → matches r2 s2 → matches (Rcat r1 r2) (s1 +:+ s2)
  | matches_alt_l r1 r2 s : matches r1 s → matches (Ralt r1 r2) s
  | matches_alt_r r1 r2 s : matches r2 s → matches (Ralt r1 r2) s
  | matches_star_nil r : matches (Rstar r) EmptyString
  | matches_star_cons r s1 s2 :
      matches r s1 → matches (Rstar r) s2 → matches (Rstar r) (s1 +:+ s2).

(** Every character of [s] satisfies [p]. *)
Fixpoint all_chars (p : ascii → bool) (s : string) : bool :=
  match s with
  | EmptyString => true
  | String c rest => p c && all_chars p rest
  end.

(** A non-empty run of characters other than white space and [@]. *)
Definition address_part (s : string) : Prop :=
  s ≠ EmptyString ∧ all_chars not_space_at s = true.

(** How many characters of [s] satisfy [p]. *)
Fixpoint count_chars (p : ascii → bool) (s : string) : nat :=
  match s with
  | EmptyString => 0
  | String c rest => (if p c then 1 else 0) + count_chars p rest
  end.

(** ** Core.gs and Main.gs: the batch over the seller rows *)

(** The columns of the seller sheet ([COLUMNS]), counted from 0. *)
Module COLUMNS.
Definition SELLER_ID : nat := 0.
Definition SELLER_NAME : nat := 1.
Definition EMAIL : nat := 2.
Definition RESULT : nat := 3.
Definition REPORT : nat := 4.
End COLUMNS.

(** Further fields of [CONFIG], as Core.gs has them.  The two subjects are
    passed on to the mail service and never looked into. *)
Definition MYSTERY_SHEET_NAME : string := "Mystery Order".
Definition PASSED_EMAIL_TEMPLATE : string := "passed_email_template_jp".
Definition FAILED_EMAIL_TEMPLATE : string := "failed_email_template_jp".
Definition EMAIL_SUBJECT_PASSED : string := "ミステリーオーダーテスト：合格しました".
Definition EMAIL_SUBJECT_FAILED : string := "ミステリーオーダーテスト：改善が必要です".
Definition HEADER_ROW_COUNT : nat := 1.

(** [row[k] || ''], where [row[k]] is [undefined] past the end of the row. *)
Definition field_or_blank (row : list cell) (k : nat) : cell :=
  match row !! k with
  | Some c => js_or c (CStr EmptyString)
  | None => CStr EmptyString
  end.

(** Core.gs, [extractRowData].  Its two further fields are the constants
    [CONFIG.SELLER_SUPPORT_CENTER_URL] and [CONFIG.QUALITY_DASHBOARD_URL],
    which only the template reads. *)
Definition extractRowData (row : list cell) : rowData :=
  {| sellerId := field_or_blank row COLUMNS.SELLER_ID;
     sellerName := field_or_blank row COLUMNS.SELLER_NAME;
     sellerEmail := field_or_blank row COLUMNS.EMAIL;
     result := field_or_blank row COLUMNS.RESULT;
     reportLink := field_or_blank row COLUMNS.REPORT |}.

(** [c.toLowerCase()] on a code unit below 256: the letters A to Z and the
    capital letters of Latin-1 (all of 192 to 222 but the sign 215). *)
Definition to_lower_char (c : ascii) : ascii :=
  let n := nat_of_ascii c in
  if ((65 <=? n) && (n <=? 90) || (192 <=? n) && (n <=? 222) && negb (n =? 215))%nat
  then ascii_of_nat (n + 32)
  else c.

(** [s.toLowerCase()] *)
Fixpoint toLowerCase (s : string) : string :=
  match s with
  | EmptyString => EmptyString
  | String c rest => String (to_lower_char c) (toLowerCase rest)
  end.

(** The counters that [processData] returns. *)
Record run_stats : Type := {
  processed : Z;
  emailsSent : Z;
  errors : Z;
  skippedNoEmail : Z
}.

(** What a run of the batch takes from outside: whether the two templates
    load; what a template evaluates to once every field of [data] has been
    copied into it; and the token and the time drawn while row [i] of the
    seller sheet is processed. *)
Record Batch : Type := {
  templates_load : bool;
  render : string → rowData → string;
  uuid_of : nat → string;
  time_of : nat → Z
}.

Section BatchRun.
Context (H : Host) (B : Batch).

(** The [emailSent] branch at the end of the loop body. *)
Definition count_send (s : run_stats) (emailSent : bool) : run_stats :=
  if emailSent
  then {| processed := processed s; emailsSent := emailsSent s + 1;
          errors := errors s; skippedNoEmail := skippedNoEmail s |}
  else {| processed := processed s; emailsSent := emailsSent s;
          errors := errors s + 1; skippedNoEmail := skippedNoEmail s |}.

(** The body of the loop of [processData] on [data[i]].  [toLowerCase]
    exists on strings only: on another value the call raises and the
    [catch] of the body counts an error. *)
Definition process_row (i : nat) (row : list cell) (s : run_stats) (w : world)
    : run_stats * world :=
  let s := {| processed := processed s + 1; emailsSent := emailsSent s;
              errors := errors s; skippedNoEmail := skippedNoEmail s |} in
  if (length row <=? COLUMNS.REPORT)%nat then (s, w)
  else
    let rowData := extractRowData row in
    if negb (truthy (sellerEmail rowData)) then
      ({| processed := processed s; emailsSent := emailsSent s;
          errors := errors s; skippedNoEmail := skippedNoEmail s + 1 |}, w)
    else if negb (truthy (result rowData)) then (s, w)
    else
      match result rowData with
      | CStr res =>
          if bool_decide (toLowerCase res = "passed") then
            let '(w', emailSent) :=
              sendNotificationEmail H (uuid_of B i) (time_of B i)
                (render B PASSED_EMAIL_TEMPLATE rowData) rowData EMAIL_SUBJECT_PASSED w in
            (count_send s emailSent, w')
          else if bool_decide (toLowerCase res = "failed") then
            let '(w', emailSent) :=
              sendNotificationEmail H (uuid_of B i) (time_of B i)
                (render B FAILED_EMAIL_TEMPLATE rowData) rowData EMAIL_SUBJECT_FAILED w in
            (count_send s emailSent, w')
          else (s, w)
      | _ =>
          ({| processed := processed s; emailsSent := emailsSent s;
              errors := errors s + 1; skippedNoEmail := skippedNoEmail s |}, w)
      end.

(** The loop of [processData] from index [i] on. *)
Fixpoint process_rows (i : nat) (rows : list (list cell)) (s : run_stats) (w : world)
    : run_stats * world :=
  match rows with
  | [] => (s, w)
  | row :: rest =>
      let '(s', w') := process_row i row s w in
      process_rows (S i) rest s' w'
  end.

(** Main.gs, [processData(data)]. *)
Definition processData (data : list (list cell)) (w : world) : run_stats * world :=
  let stats := {| processed := 0; emailsSent := 0; errors := 0; skippedNoEmail := 0 |} in
  if templates_load B then
    process_rows HEADER_ROW_COUNT (drop HEADER_ROW_COUNT data) stats w
  else
    ({| processed := 0; emailsSent := 0; errors := 1; skippedNoEmail := 0 |}, w).

(** Core.gs, [getSheetData()], on the seller sheet if there is one: the
    rows, and one row of one blank cell for a sheet with no content. *)
Definition getSheetData (mystery : option (list (list cell))) : option (list (list cell)) :=
  match mystery with
  | None => None
  | Some [] => Some [[CStr EmptyString]]
  | Some rows => Some rows
  end.

(** Main.gs, [main()]: the counters, or nothing when there is no data. *)
Definition main (mystery : option (list (list cell))) (w : world)
    : option run_stats * world :=
  match getSheetData mystery with
  | None => (None, w)
  | Some data =>
      if (length data <=? HEADER_ROW_COUNT)%nat then (None, w)
      else let '(stats, w') := processData data w in (Some stats, w')
  end.
End BatchRun.

(** A seller row goes as far as [sendNotificationEmail]: it has its five
    columns, something in the email column, and a result that reads
    [passed] or [failed] whatever the case of its letters. *)
Definition attempted (row : list cell) : bool :=
  negb (length row <=? COLUMNS.REPORT)%nat
  && truthy (sellerEmail (extractRowData row))
  && match result (extractRowData row) with
     | CStr res => bool_decide (toLowerCase res = "passed")
                   || bool_decide (toLowerCase res = "failed")
     | _ => false
     end.

(** The tracking rows that a run of the loop from index [i] writes. *)
Fixpoint issued (B : Batch) (i : nat) (rows : list (list cell)) : list row :=
  match rows with
  | [] => []
  | row :: rest =>
      (if attempted row
       then [new_record (uuid_of B i) (time_of B i)
               (sellerEmail (extractRowData row)) (sellerId (extractRowData row))]
       else [])
      ++ issued B (S i) rest
  end.

(** Appending [news] to the tracking sheet, creating it with its header if
    need be; nothing is created for no row. *)
Definition append_records (news : list row) (st : store) : store :=
  match news with
  | [] => st
  | _ => Some (rows_or_header st ++ news)
  end.

(** A mail as the batch sends them. *)
Definition batch_mail (m : mail) : Prop :=
  isValidEmail (mail_to m) = true
  ∧ (mail_subject m = EMAIL_SUBJECT_PASSED ∨ mail_subject m = EMAIL_SUBJECT_FAILED)
  ∧ mail_name m = CONFIG.EMAIL_SENDER_NAME
  ∧ mail_replyTo m = CONFIG.EMAIL_SENDER_ADDRESS.

(** The counters at the start of a run. *)
Definition no_stats : run_stats :=
  {| processed := 0; emailsSent := 0; errors := 0; skippedNoEmail := 0 |}.

(** ** Examples of a batch *)

Definition batch0 : Batch :=
  {| templates_load := true;
     render := λ tpl _, "<p>" +:+ tpl +:+ "</p>";
     uuid_of := λ i, "uuid-" +:+ pretty i;
     time_of := λ i, Z.of_nat i |}.

(** A seller row whose email column is not an address. *)
Definition seller_row0 : list cell :=
  [CStr "S1"; CStr "Shop"; CStr "not an address"; CStr "Passed"; CStr "report"].

(** What a row adds to [totalViews]: nothing unless it is opened, else the
    larger of its view count and 1. *)
Definition views_counted (r : row) : Z :=
  if decide (Opened r = CStr "Yes") then Z.max (viewCount r) 1 else 0.

(** What a row adds to [openedEmails]. *)
Definition opened_counted (r : row) : Z :=
  if decide (Opened r = CStr "Yes") then 1 else 0.

(** ** The seller rows by what the loop does with them *)

(** The row has its five columns and nothing in the email column. *)
Definition no_email (row : list cell) : bool :=
  negb (length row <=? COLUMNS.REPORT)%nat
  && negb (truthy (sellerEmail (extractRowData row))).

(** The row has an email and a result that is not text, so that
    [toLowerCase] raises. *)
Definition result_not_text (row : list cell) : bool :=
  negb (length row <=? COLUMNS.REPORT)%nat
  && truthy (sellerEmail (extractRowData row))
  && truthy (result (extractRowData row))
  && match result (extractRowData row) with CStr _ => false | _ => true end.

(** The row goes as far as sending and its email column holds at least one
    valid address. *)
Definition delivered (row : list cell) : bool :=
  attempted row
  && match sellerEmail (extractRowData row) with
     | CStr e => bool_decide (valid_addresses e ≠ [])
     | _ => false
     end.

(** The row goes as far as sending and no mail leaves. *)
Definition undelivered (row : list cell) : bool :=
  attempted row && negb (delivered row).

(** The addresses that the mails for a seller row go to. *)
Definition recipients (row : list cell) : list string :=
  if attempted row then
    match sellerEmail (extractRowData row) with
    | CStr e => valid_addresses e
    | _ => []
    end
  else [].

(** How many of [rows] satisfy [f]. *)
Definition count_rows (f : list cell → bool) (rows : list (list cell)) : Z :=
  Z.of_nat (length (filter (λ r, f r = true) rows)).

(** ** Main.gs: the counts of the system test *)

(** The three counters of the loop of [testSystem]. *)
Record test_counts : Type := {
  passedCount : Z;
  failedCount : Z;
  emailCount : Z
}.

(** [row[k]] below the length of the row; the loop reads a cell only
    after it has checked the length. *)
Definition cell_at (row : list cell) (k : nat) : cell :=
  default (CStr EmptyString) (row !! k).

(** The body of the counting loop of [testSystem] on [data[i]].  On a
    result that is not text [toLowerCase] raises, and nothing catches it
    before the end of [testSystem]: there are no counts then. *)
Definition test_row (row : list cell) (c : test_counts) : option test_counts :=
  if (COLUMNS.REPORT <? length row)%nat then
    let result := cell_at row COLUMNS.RESULT in
    let hasEmail := truthy (cell_at row COLUMNS.EMAIL) in
    if truthy result then
      match result with
      | CStr res =>
          let c :=
            if bool_decide (toLowerCase res = "passed") then
              {| passedCount := passedCount c + 1; failedCount := failedCount c;
                 emailCount := emailCount c |}
            else if bool_decide (toLowerCase res = "failed") then
              {| passedCount := passedCount c; failedCount := failedCount c + 1;
                 emailCount := emailCount c |}
            else c in
          Some (if hasEmail
                then {| passedCount := passedCount c; failedCount := failedCount c;
                        emailCount := emailCount c + 1 |}
                else c)
      | _ => None
      end
    else Some c
  else Some c.

(** The counting loop of [testSystem] over the rows after the header. *)
Fixpoint test_rows (rows : list (list cell)) (c : test_counts) : option test_counts :=
  match rows with
  | [] => Some c
  | row :: rest =>
      match test_row row c with
      | Some c' => test_rows rest c'
      | None => None
      end
  end.

(** The counts that [testSystem] reports for the seller sheet [data]:
    none for a sheet of one row or less, where the loop is not entered. *)
Definition test_counting (data : list (list cell)) : option test_counts :=
  if (HEADER_ROW_COUNT <? length data)%nat then
    test_rows (drop HEADER_ROW_COUNT data)
      {| passedCount := 0; failedCount := 0; emailCount := 0 |}
  else None.

(** ** Email.gs: the weekly schedule *)

(** [ScriptApp.WeekDay] *)
Inductive WeekDay : Type :=
  | MONDAY | TUESDAY | WEDNESDAY | THURSDAY | FRIDAY | SATURDAY | SUNDAY.

(** A trigger of the project: the id that the service gave it, the
    function it runs, and for a weekly clock trigger its day and hour. *)
Record trigger : Type := Trigger {
  getUniqueId : string;
  getHandlerFunction : string;
  weekly : option (WeekDay * Z)
}.

(** [ScriptApp.deleteTrigger(t)] *)
Definition deleteTrigger (t : trigger) (project : list trigger) : list trigger :=
  filter (λ t', getUniqueId t' ≠ getUniqueId t) project.

(** The loop of [setWeeklySchedule] over the triggers read at its start. *)
Fixpoint delete_main (triggers project : list trigger) : list trigger :=
  match triggers with
  | [] => project
  | t :: rest =>
      if bool_decide (getHandlerFunction t = "main")
      then delete_main rest (deleteTrigger t project)
      else delete_main rest project
  end.

(** Email.gs, [setWeeklySchedule()], on a project whose trigger service
    answers; [uid] is the id given to the trigger created. *)
Definition setWeeklySchedule (uid : string) (project : list trigger)
    : list trigger * bool :=
  let triggers := project in
  (delete_main triggers project ++ [Trigger uid "main" (Some (MONDAY, 9%Z))], true).

(** The triggers of [project] that run [f], and those that do not. *)
Definition triggers_of (f : string) (project : list trigger) : list trigger :=
  filter (λ t, getHandlerFunction t = f) project.

Definition triggers_but (f : string) (project : list trigger) : list trigger :=
  filter (λ t, getHandlerFunction t ≠ f) project.

Definition project0 : list trigger :=
  [Trigger "t1" "main" (Some (MONDAY, 9%Z)); Trigger "t2" "showEmailStats" None;
   Trigger "t3" "main" None].

(** Seller rows for the system test. *)
Definition seller_data0 : list (list cell) :=
  [[CStr "Seller ID"; CStr "Name"; CStr "Email"; CStr "Result"; CStr "Report"];
   [CStr "S1"; CStr "Shop"; CStr "a@x.com"; CStr "Passed"; CStr "report"];
   [CStr "S2"; CStr "Store"; CStr ""; CStr "FAILED"; CStr "report"];
   [CStr "S3"; CStr "Stall"; CStr "c@x.com"; CStr "pending"; CStr "report"]].

(** A seller sheet of three sellers, the first with two addresses. *)
Definition seller_data1 : list (list cell) :=
  [[CStr "Seller ID"; CStr "Name"; CStr "Email"; CStr "Result"; CStr "Report"];
   [CStr "S1"; CStr "Shop"; CStr "a@x.com, b@x.com"; CStr "Passed"; CStr "report"];
   [CStr "S2"; CStr "Store"; CStr "c@x.com"; CStr "pending"; CStr "report"];
   [CStr "S3"; CStr "Stall"; CStr "d@x.com"; CStr "FAILED"; CStr "report"]].

(** ** Hits of any tokens that overlap *)

(** The requests [reqs], a time and a token each, all started. *)
Definition started_all (reqs : list (Z * string)) : list thread :=
  (λ q, Waiting q.1 q.2) <$> reqs.

(** The cells of a row that say which mail it stands for. *)
Definition identity (r : row) : cell * cell * cell * cell :=
  (TrackingID r, Email r, SellerID r, SendDate r).

(** [sh] is [sh0] but for the open date, the opened mark and the views of
    data rows whose token is one of [ids]. *)
Definition sheet_frame (sh0 : list row) (ids : list string) (sh : list row) : Prop :=
  length sh = length sh0
  ∧ ∀ j r0, sh0 !! j = Some r0 →
      ∃ r, sh !! j = Some r ∧ identity r = identity r0
           ∧ ((j = 0 ∨ ∀ id, id ∈ ids → TrackingID r0 ≠ CStr id) → r = r0).

(** A write into one of the three last columns of a data row of [sh0]
    whose token is one of [ids]. *)
Definition write_ok (sh0 : list row) (ids : list string) (w : write) : Prop :=
  ∃ j c v r0 id, w = SetValue (j + 1) c v ∧ 1 ≤ j ∧ (c = 5 ∨ c = 6 ∨ c = 7)
                 ∧ sh0 !! j = Some r0 ∧ id ∈ ids ∧ TrackingID r0 = CStr id.

Definition pending_ok (sh0 : list row) (ids : list string) (t : thread) : Prop :=
  match t with
  | Waiting _ id => id ∈ ids
  | Writing ws => Forall (write_ok sh0 ids) ws
  end.

(** ** Which row a hit touches *)

Lemma strict_eq_string_true c s : strict_eq_string c s = true ↔ c = CStr s.
Proof.
  destruct c; simpl; rewrite ?bool_decide_eq_true; split; intros E;
    try discriminate; congruence.
Qed.

Lemma strict_eq_string_false c s : strict_eq_string c s = false ↔ c ≠ CStr s.
Proof.
  rewrite <- strict_eq_string_true.
  destruct (strict_eq_string c s); split; intros E; congruence.
Qed.

Lemma open_writes_miss H now id rows i :
  (∀ r, r ∈ rows → TrackingID r ≠ CStr id) → open_writes H now id i rows = [].
Proof.
  revert i. induction rows as [|r rows IH]; intros i Hno; simpl; [done|].
  assert (E : strict_eq_string (TrackingID r) id = false).
  { apply strict_eq_string_false, Hno. left. }
  rewrite E. apply IH. intros r' Hr'. apply Hno. by right.
Qed.

Lemma open_writes_hit H now id rows k r : ∀ i,
  rows !! k = Some r → TrackingID r = CStr id →
  (∀ j r', j < k → rows !! j = Some r' → TrackingID r' ≠ CStr id) →
  open_writes H now id i rows = row_writes H now (i + k) r.
Proof.
  revert k. induction rows as [|r0 rows IH]; intros k i Hk Ht Hbefore; [done|].
  destruct k as [|k]; simpl in *.
  - injection Hk as ->. apply strict_eq_string_true in Ht. rewrite Ht.
    unfold row_writes. by rewrite Nat.add_0_r.
  - assert (E : strict_eq_string (TrackingID r0) id = false).
    { apply strict_eq_string_false, (Hbefore 0); [lia|done]. }
    rewrite E, (IH k (S i)); [f_equal; lia|done|done|].
    intros j r' Hj Hl. apply (Hbefore (S j)); [lia|done].
Qed.

Lemma hit_or_miss id sh : no_hit id sh ∨ ∃ i r, first_hit id sh i r.
Proof.
  destruct sh as [|hd rows].
  { left. intros j r _ Hl. by rewrite lookup_nil in Hl. }
  assert (Hrows : (∀ r, r ∈ rows → TrackingID r ≠ CStr id)
            ∨ ∃ k r, rows !! k = Some r ∧ TrackingID r = CStr id
                     ∧ ∀ j r', j < k → rows !! j = Some r' → TrackingID r' ≠ CStr id).
  { clear hd. induction rows as [|r rows IH].
    - left. intros r Hr. by apply elem_of_nil in Hr.
    - destruct (decide (TrackingID r = CStr id)) as [E|E].
      + right. exists 0, r. split_and!; [done|done|lia].
      + destruct IH as [Hno|(k & r' & Hk & Ht & Hbefore)].
        * left. intros r' [->|Hr]%elem_of_cons; auto.
        * right. exists (S k), r'. split_and!; [done|done|].
          intros [|j] r'' Hj Hl; simpl in Hl; [congruence|].
          apply (Hbefore j); [lia|done]. }
  destruct Hrows as [Hno|(k & r & Hk & Ht & Hbefore)].
  - left. intros [|j] r Hj Hl; [lia|]. simpl in Hl.
    apply Hno. by eapply list_elem_of_lookup_2.
  - right. exists (S k), r. split_and!; [lia|done|done|].
    intros [|j] r' Hj Hl; [lia|]. simpl in Hl. apply (Hbefore j); [lia|done].
Qed.

(** The writes a call plans from its snapshot of the sheet. *)
Lemma snapshot_miss H now id sh :
  no_hit id sh → open_writes H now id 1 (drop 1 (getValues sh)) = [].
Proof.
  intros Hno. destruct sh as [|hd rows]; [done|]. simpl. rewrite drop_0.
  apply open_writes_miss. intros r [j Hj]%list_elem_of_lookup_1.
  apply (Hno (S j)); [lia|done].
Qed.

Lemma snapshot_hit H now id sh i r :
  first_hit id sh i r →
  open_writes H now id 1 (drop 1 (getValues sh)) = row_writes H now i r.
Proof.
  intros (Hi & Hl & Ht & Hbefore). destruct sh as [|hd rows]; [done|].
  destruct i as [|k]; [lia|]. simpl in *. rewrite drop_0.
  rewrite (open_writes_hit H now id rows k r 1); [done..|].
  intros j r' Hj Hl'. apply (Hbefore (S j)); [lia|done].
Qed.

Lemma apply_row_writes H now i r sh :
  sh !! i = Some r →
  apply_writes (row_writes H now i r) sh = <[i := open_row H now r]> sh.
Proof.
  intros Hi. unfold row_writes, open_row, apply_writes.
  assert (Hlt : i < length sh) by (by eapply lookup_lt_Some).
  rewrite Nat.add_1_r.
  destruct (strict_eq_string (Opened r) "No"); simpl.
  - apply list_eq. intros j. destruct (decide (i = j)) as [->|Hne].
    + rewrite list_lookup_insert_eq by done.
      rewrite !list_lookup_alter_eq, Hi. done.
    + rewrite list_lookup_insert_ne by done. by rewrite !list_lookup_alter_ne.
  - apply list_eq. intros j. destruct (decide (i = j)) as [->|Hne].
    + rewrite list_lookup_insert_eq by done. by rewrite list_lookup_alter_eq, Hi.
    + rewrite list_lookup_insert_ne by done. by rewrite list_lookup_alter_ne.
Qed.

(** A hit on a known token rewrites the row found, and only it. *)
Lemma recordEmailOpen_hit H now id sh i r :
  first_hit id sh i r →
  recordEmailOpen H now id (Some sh) = Some (<[i := open_row H now r]> sh).
Proof.
  intros Hf. unfold recordEmailOpen. rewrite (snapshot_hit H now id sh i r Hf).
  f_equal. apply apply_row_writes. by destruct Hf as (_ & Hl & _).
Qed.

(** A hit on an unknown token writes nothing. *)
Lemma recordEmailOpen_miss H now id sh :
  no_hit id sh → recordEmailOpen H now id (Some sh) = Some sh.
Proof.
  intros Hno. unfold recordEmailOpen. by rewrite (snapshot_miss H now id sh Hno).
Qed.

Lemma first_hit_unique id sh i r i' r' :
  first_hit id sh i r → first_hit id sh i' r' → i = i' ∧ r = r'.
Proof.
  intros (Hi & Hl & Ht & Hb) (Hi' & Hl' & Ht' & Hb').
  assert (i = i') as ->.
  { destruct (Nat.lt_trichotomy i i') as [Hlt|[->|Hlt]]; [|done|].
    - destruct (Hb' i r); [lia|done|done].
    - destruct (Hb i' r'); [lia|done|done]. }
  split; [done|congruence].
Qed.

(** Rewriting the row found, token kept, leaves it the row found. *)
Lemma first_hit_insert id sh i r r' :
  first_hit id sh i r → TrackingID r' = TrackingID r →
  first_hit id (<[i := r']> sh) i r'.
Proof.
  intros (Hi & Hl & Ht & Hb) Hsame. split_and!; [done| |congruence|].
  - apply list_lookup_insert_eq. by eapply lookup_lt_Some.
  - intros j r'' Hj Hl'. rewrite list_lookup_insert_ne in Hl' by lia. by eapply Hb.
Qed.

(** [doGet] either leaves the spreadsheet alone or runs the recorder on the
    [id] of the request; it answers the image either way. *)
Lemma doGet_cases H now e st :
  doGet H now e st = (st, gif)
  ∨ ∃ id, e !! "id" = Some id ∧ e !! "action" = Some "open" ∧ id ≠ EmptyString
          ∧ doGet H now e st = (recordEmailOpen H now id st, gif).
Proof.
  unfold doGet, param_is, param_truthy.
  destruct (e !! "action") as [a|]; [|by left].
  destruct (e !! "id") as [id|]; [|left; by rewrite andb_false_r].
  destruct (decide (a = "open")) as [->|Ha].
  - destruct (decide (id = EmptyString)) as [->|Hid]; [left; by rewrite andb_false_r|].
    right. exists id. split_and!; [done..|].
    unfold truthy. by rewrite bool_decide_eq_true_2, (bool_decide_eq_false_2 _ Hid).
  - left. by rewrite (bool_decide_eq_false_2 _ Ha).
Qed.

Lemma doGet_open_request H now tok st :
  tok ≠ EmptyString →
  doGet H now (open_request tok) st = (recordEmailOpen H now tok st, gif).
Proof.
  intros Htok. unfold doGet, open_request, param_is, param_truthy.
  rewrite lookup_insert_eq, lookup_insert_ne, lookup_insert_eq by done.
  unfold truthy. by rewrite bool_decide_eq_true_2, (bool_decide_eq_false_2 _ Htok).
Qed.

(** ** The callback leaves the sheet alone unless it finds the token *)



(** C10. A call of [doGet] never adds or removes a row and never creates
    or drops the tracking sheet.  A row that differs afterwards is the first
    data row whose token is the [id] of the request, so there is at most
    one; its token, address, seller and send date are as before, like every
    cell of every other row. *)
Theorem doGet_frame H now (e : gmap string string) (st : store) :
  let st' := (doGet H now e st).1 in
  (st = None ∧ st' = None)
  ∨ ∃ sh sh', st = Some sh ∧ st' = Some sh' ∧ length sh' = length sh
      ∧ (∀ j r, sh !! j = Some r →
           ∃ r', sh' !! j = Some r'
                 ∧ TrackingID r' = TrackingID r ∧ Email r' = Email r
                 ∧ SellerID r' = SellerID r ∧ SendDate r' = SendDate r
                 ∧ (r' ≠ r → ∃ id, e !! "id" = Some id ∧ first_hit id sh j r))
      ∧ (∀ j1 j2, sh' !! j1 ≠ sh !! j1 → sh' !! j2 ≠ sh !! j2 → j1 = j2).
Proof.
  cbv zeta.
  destruct (doGet_cases H now e st) as [->|(id & Hid & Hact & Hne & ->)]; cbn [fst].
  - destruct st as [sh|]; [right|by left].
    exists sh, sh. split_and!; [done..| |done].
    intros j r Hl. exists r. by split_and!.
  - destruct st as [sh|]; [right|by left].
    destruct (hit_or_miss id sh) as [Hno|(i & r & Hf)].
    + rewrite recordEmailOpen_miss by done.
      exists sh, sh. split_and!; [done..| |done].
      intros j r Hl. exists r. by split_and!.
    + rewrite (recordEmailOpen_hit H now id sh i r Hf).
      pose proof Hf as (Hi & Hl & Ht & Hb).
      assert (Hlt : i < length sh) by (by eapply lookup_lt_Some).
      eexists sh, _. split_and!; [done|done|by rewrite length_insert| |].
      * intros j r0 Hj. destruct (decide (i = j)) as [<-|Hij].
        -- rewrite list_lookup_insert_eq by done.
           assert (r0 = r) as -> by congruence.
           exists (open_row H now r). split; [done|].
           split_and!; [| | | |by eauto];
             unfold open_row; by destruct (strict_eq_string (Opened r) "No").
        -- rewrite list_lookup_insert_ne by done. exists r0. by split_and!.
      * intros j1 j2 H1 H2.
        destruct (decide (i = j1)) as [<-|Hn1];
          [|by rewrite list_lookup_insert_ne in H1].
        destruct (decide (i = j2)) as [<-|Hn2];
          [done|by rewrite list_lookup_insert_ne in H2].
Qed.

(** ** Successive hits of one tracking URL *)

(** [(v || 0) + 1] on a number cell is [v + 1]. *)
Lemma plus_one_count H v : js_plus_one H (js_or (CNum v) (CNum 0)) = CNum (v + 1).
Proof.
  unfold js_or. simpl. destruct (Z.eqb_spec v 0) as [->|Hv]; reflexivity.
Qed.

Lemma recordEmailOpen_serial H now id sh :
  recordEmailOpen H now id (Some sh) = Some (serial H id [now] sh).
Proof. reflexivity. Qed.

Lemma serial_one H now tok sh i r :
  first_hit tok sh i r → serial H tok [now] sh = <[i := open_row H now r]> sh.
Proof.
  intros Hf. pose proof (recordEmailOpen_hit H now tok sh i r Hf) as Hrec.
  rewrite recordEmailOpen_serial in Hrec. congruence.
Qed.

(** After its first open, each further hit in turn adds one view. *)
Lemma serial_opened H tok times : ∀ sh i r v,
  first_hit tok sh i r → Opened r = CStr "Yes" → Views r = CNum v →
  serial H tok times sh = <[i := set_column 7 (CNum (v + Z.of_nat (length times))) r]> sh.
Proof.
  induction times as [|now times IH]; intros sh i r v Hf Ho Hv.
  - simpl. rewrite Z.add_0_r. symmetry. apply list_insert_id.
    destruct Hf as (_ & Hl & _). rewrite Hl. f_equal.
    destruct r; simpl in *; by subst.
  - change (serial H tok (now :: times) sh)
      with (serial H tok times (serial H tok [now] sh)).
    rewrite (serial_one H now tok sh i r Hf).
    assert (Hrow : open_row H now r = set_column 7 (CNum (v + 1)) r).
    { unfold open_row, add_view. rewrite Ho, Hv, plus_one_count. reflexivity. }
    rewrite Hrow.
    rewrite (IH _ i (set_column 7 (CNum (v + 1)) r) (v + 1)%Z);
      [|by apply (first_hit_insert tok sh i r)|done|done].
    rewrite list_insert_insert_eq.
    replace (v + Z.of_nat (length (now :: times)))%Z
      with (v + 1 + Z.of_nat (length times))%Z by (simpl length; lia).
    reflexivity.
Qed.

(** The first hit in turn opens the row, the others add one view each. *)
Lemma serial_fresh H tok sh i r t1 times :
  first_hit tok sh i r → Opened r = CStr "No" → Views r = CNum 0 →
  serial H tok (t1 :: times) sh
  = <[i := Row (TrackingID r) (Email r) (SellerID r) (SendDate r)
               (CDate t1) (CStr "Yes") (CNum (Z.of_nat (length (t1 :: times)) - 1))]> sh.
Proof.
  intros Hf Ho Hv.
  change (serial H tok (t1 :: times) sh)
    with (serial H tok times (serial H tok [t1] sh)).
  rewrite (serial_one H t1 tok sh i r Hf).
  assert (Hrow : open_row H t1 r
                 = Row (TrackingID r) (Email r) (SellerID r) (SendDate r)
                       (CDate t1) (CStr "Yes") (CNum 0)).
  { unfold open_row, mark_opened. rewrite Ho. simpl. rewrite Hv. reflexivity. }
  rewrite Hrow.
  erewrite (serial_opened H tok times _ i _ 0%Z);
    [|by apply (first_hit_insert tok sh i r)|reflexivity|reflexivity].
  rewrite list_insert_insert_eq.
  replace (Z.of_nat (length (t1 :: times)) - 1)%Z
    with (0 + Z.of_nat (length times))%Z by (simpl length; lia).
  reflexivity.
Qed.

Lemma hits_serial H tok times : ∀ sh,
  tok ≠ EmptyString → hits H tok times (Some sh) = Some (serial H tok times sh).
Proof.
  induction times as [|now times IH]; intros sh Htok; [done|].
  cbn [hits]. rewrite doGet_open_request by done. cbn [fst].
  rewrite recordEmailOpen_serial. by rewrite IH.
Qed.

(** C1. Take the first data row with a given token, not yet opened and
    with no view.  One hit of its tracking URL marks it opened (the open
    date is the time of that hit) and leaves the view count at 0; after N
    hits, N at least 1, the row is opened and its view count is N - 1.
    Nothing else in the sheet changes. *)
Theorem hits_count H tok (sh : list row) i r t1 times :
  first_hit tok sh i r → tok ≠ EmptyString →
  Opened r = CStr "No" → Views r = CNum 0 →
  hits H tok [t1] (Some sh)
  = Some (<[i := Row (TrackingID r) (Email r) (SellerID r) (SendDate r)
                     (CDate t1) (CStr "Yes") (CNum 0)]> sh)
  ∧ hits H tok (t1 :: times) (Some sh)
    = Some (<[i := Row (TrackingID r) (Email r) (SellerID r) (SendDate r)
                       (CDate t1) (CStr "Yes")
                       (CNum (Z.of_nat (length (t1 :: times)) - 1))]> sh).
Proof.
  intros Hf Htok Ho Hv. rewrite !hits_serial by done. split.
  - by rewrite (serial_fresh H tok sh i r t1 [] Hf Ho Hv).
  - by rewrite (serial_fresh H tok sh i r t1 times Hf Ho Hv).
Qed.

Lemma first_hit_sheet0 : first_hit "tok-1" sheet0 1 (record0 "tok-1" "No" 0).
Proof.
  split_and!; [lia|reflexivity|reflexivity|]. intros j r' Hj. lia.
Defined.

Lemma hits_count_witness :
  hits host0 "tok-1" [10%Z] (Some sheet0)
  = Some [header;
          Row (CStr "tok-1") (CStr "a@x.com") (CStr "S1") (CDate 1000)
              (CDate 10) (CStr "Yes") (CNum 0);
          record0 "tok-2" "Yes" 2]
  ∧ hits host0 "tok-1" [10; 20; 30]%Z (Some sheet0)
    = Some [header;
            Row (CStr "tok-1") (CStr "a@x.com") (CStr "S1") (CDate 1000)
                (CDate 10) (CStr "Yes") (CNum 2);
            record0 "tok-2" "Yes" 2].
Proof.
  exact (hits_count host0 "tok-1" sheet0 1 (record0 "tok-1" "No" 0) 10%Z [20; 30]%Z
           first_hit_sheet0 ltac:(discriminate) eq_refl eq_refl).
Defined.

(** ** Any sequence of requests: what can happen to one row *)

Lemma open_row_step H now r :
  opened_ok r → views_num r →
  row_step r (open_row H now r)
  ∧ opened_ok (open_row H now r) ∧ views_num (open_row H now r).
Proof.
  intros [Ho|Ho] [v Hv]; unfold open_row, add_view; rewrite Ho; simpl.
  - split_and!; [right; left; by split_and!|by right|by exists v].
  - rewrite Hv, plus_one_count. split_and!.
    + right; right. split_and!; [done|done|]. simpl. unfold viewCount. by rewrite Hv.
    + by right.
    + by eexists.
Qed.

Lemma doGet_row_step H now e sh i r :
  sh !! i = Some r → opened_ok r → views_num r →
  ∃ sh' r', (doGet H now e (Some sh)).1 = Some sh' ∧ sh' !! i = Some r'
            ∧ row_step r r' ∧ opened_ok r' ∧ views_num r'.
Proof.
  intros Hl Ho Hv.
  assert (Hsame : ∃ sh' r', Some sh = Some sh' ∧ sh' !! i = Some r'
                    ∧ row_step r r' ∧ opened_ok r' ∧ views_num r').
  { exists sh, r. split_and!; [done|done|by left|done|done]. }
  destruct (doGet_cases H now e (Some sh)) as [->|(id & _ & _ & _ & ->)]; [done|].
  cbn [fst]. destruct (hit_or_miss id sh) as [Hno|(i' & r0 & Hf)].
  - by rewrite recordEmailOpen_miss.
  - rewrite (recordEmailOpen_hit H now id sh i' r0 Hf).
    assert (Hlt : i' < length sh) by (destruct Hf as (_ & ? & _); by eapply lookup_lt_Some).
    destruct (decide (i' = i)) as [->|Hne].
    + assert (r0 = r) as -> by (destruct Hf as (_ & ? & _); congruence).
      destruct (open_row_step H now r Ho Hv) as (? & ? & ?).
      eexists _, _. split_and!; [done|by apply list_lookup_insert_eq|done..].
    + eexists _, r. split_and!; [done|by rewrite list_lookup_insert_ne|by left|done|done].
Qed.

Lemma row_step_le r r' :
  views_num r → row_step r r' →
  (Opened r = CStr "Yes" → Opened r' = CStr "Yes") ∧ (viewCount r ≤ viewCount r')%Z.
Proof.
  intros [v Hv] [->|[(Hn & Hy & Hs)|(Hy & Hy' & Hs)]]; [done| |].
  - split; [congruence|]. unfold viewCount. rewrite Hs. done.
  - split; [done|]. unfold viewCount at 2. rewrite Hs. lia.
Qed.

Lemma trace_lookup_S H now e reqs st k :
  trace H ((now, e) :: reqs) st !! S k = trace H reqs (doGet H now e st).1 !! k.
Proof. reflexivity. Qed.

(** From the first state of a run to any later one. *)
Lemma trace_from_start H i reqs : ∀ sh r k b,
  sh !! i = Some r → opened_ok r → views_num r →
  trace H reqs (Some sh) !! k = Some b →
  ∃ rb, row_at b i = Some rb ∧ opened_ok rb ∧ views_num rb
        ∧ (Opened r = CStr "Yes" → Opened rb = CStr "Yes")
        ∧ (viewCount r ≤ viewCount rb)%Z.
Proof.
  induction reqs as [|[now e] reqs IH]; intros sh r k b Hl Ho Hv Hk.
  - destruct k as [|k]; [|done]. injection Hk as <-. exists r. by split_and!.
  - destruct k as [|k].
    { injection Hk as <-. exists r. by split_and!. }
    rewrite trace_lookup_S in Hk.
    destruct (doGet_row_step H now e sh i r Hl Ho Hv) as (sh' & r' & Hd & Hl' & Hs & Ho' & Hv').
    rewrite Hd in Hk.
    destruct (IH sh' r' k b Hl' Ho' Hv' Hk) as (rb & Hb & Hob & Hvb & Hmono & Hle).
    destruct (row_step_le r r' Hv Hs) as [Hm1 Hle1].
    exists rb. split_and!; [done..|auto|lia].
Qed.

(** A run from its state [j] on is the run of the remaining requests. *)
Lemma trace_suffix H : ∀ j reqs st a m,
  trace H reqs st !! j = Some a →
  trace H reqs st !! (j + m) = trace H (drop j reqs) a !! m.
Proof.
  induction j as [|j IH]; intros reqs st a m Hj.
  - destruct reqs as [|[now e] reqs]; injection Hj as <-; by rewrite drop_0.
  - destruct reqs as [|[now e] reqs]; [done|].
    rewrite trace_lookup_S in Hj. cbn [drop].
    replace (S j + m) with (S (j + m)) by lia. rewrite trace_lookup_S. by apply IH.
Qed.

(** C5. Along any sequence of requests, a row whose [Opened] cell is one
    of the two words and whose [Views] cell is a number keeps both; once
    opened it stays opened, so it goes from [No] to [Yes] in at most one
    request; its view count never decreases; and a request that changes the
    count found the row already opened.  Such a request adds exactly one
    as long as the count is one that doubles add 1 to exactly: not below
    the opposite of [MAX_SAFE_INTEGER] at the start of the run, and not
    above [MAX_SAFE_INTEGER] before the request. *)
Theorem opened_monotone H reqs (sh : list row) i r0 :
  sh !! i = Some r0 → opened_ok r0 → views_num r0 →
  let tr := trace H reqs (Some sh) in
  (∀ j a, tr !! j = Some a → ∃ r, row_at a i = Some r ∧ opened_ok r ∧ views_num r)
  ∧ (∀ j k a b ra rb, j ≤ k → tr !! j = Some a → tr !! k = Some b →
       row_at a i = Some ra → row_at b i = Some rb →
       (Opened ra = CStr "Yes" → Opened rb = CStr "Yes")
       ∧ (viewCount ra ≤ viewCount rb)%Z)
  ∧ (∀ j a b ra rb, tr !! j = Some a → tr !! S j = Some b →
       row_at a i = Some ra → row_at b i = Some rb →
       viewCount rb ≠ viewCount ra →
       Opened ra = CStr "Yes"
       ∧ ((- MAX_SAFE_INTEGER ≤ viewCount r0)%Z →
          (viewCount ra ≤ MAX_SAFE_INTEGER)%Z →
          viewCount rb = (viewCount ra + 1)%Z))
  ∧ (∀ j k, j < k → flips tr i j → ¬ flips tr i k).
Proof.
  intros Hl Ho Hv tr.
  assert (Hwf : ∀ j a, tr !! j = Some a →
            ∃ r, row_at a i = Some r ∧ opened_ok r ∧ views_num r).
  { intros j a Hj.
    destruct (trace_from_start H i reqs sh r0 j a Hl Ho Hv Hj) as (r & ? & ? & ? & _).
    by exists r. }
  assert (Hmono : ∀ j k a b ra rb, j ≤ k → tr !! j = Some a → tr !! k = Some b →
            row_at a i = Some ra → row_at b i = Some rb →
            (Opened ra = CStr "Yes" → Opened rb = CStr "Yes")
            ∧ (viewCount ra ≤ viewCount rb)%Z).
  { intros j k a b ra rb Hjk Hj Hk Hra Hrb.
    destruct (Hwf j a Hj) as (ra' & Hra' & Hoa & Hva).
    assert (ra' = ra) as -> by congruence.
    destruct a as [sha|]; [|done]. simpl in Hra.
    replace k with (j + (k - j)) in Hk by lia.
    unfold tr in Hk. rewrite (trace_suffix H j reqs (Some sh) (Some sha) (k - j) Hj) in Hk.
    destruct (trace_from_start H i _ sha ra _ b Hra Hoa Hva Hk) as (rb' & Hrb' & _ & _ & ? & ?).
    assert (rb' = rb) as -> by congruence. done. }
  split_and!; [done|done| |].
  - intros j a b ra rb Hj HSj Hra Hrb Hne.
    destruct (Hwf j a Hj) as (ra' & Hra' & Hoa & Hva).
    assert (ra' = ra) as -> by congruence.
    destruct a as [sha|]; [|done]. simpl in Hra.
    replace (S j) with (j + 1) in HSj by lia.
    unfold tr in HSj. rewrite (trace_suffix H j reqs (Some sh) (Some sha) 1 Hj) in HSj.
    destruct (drop j reqs) as [|[now e] rest]; [done|].
    rewrite trace_lookup_S in HSj.
    destruct (doGet_row_step H now e sha i ra Hra Hoa Hva) as (sh' & r' & Hd & Hl' & Hs & _).
    rewrite Hd in HSj. destruct rest as [|[now' e'] rest]; injection HSj as <-;
      (simpl in Hrb; assert (r' = rb) as -> by congruence;
       destruct Hs as [->|[(_ & _ & Hs)|(Hy & _ & Hs)]];
       [done|unfold viewCount in Hne; by rewrite Hs in Hne|
        split; [done|]; intros _ _; unfold viewCount at 1; by rewrite Hs]).
  - intros j k Hjk (a & b & ra & rb & Hj & HSj & Hra & Hrb & Hno & Hyes)
                   (a' & b' & ra' & rb' & Hk & HSk & Hra' & Hrb' & Hno' & Hyes').
    destruct (Hmono (S j) k b a' rb ra' ltac:(lia) HSj Hk Hrb Hra') as [Hstay _].
    specialize (Hstay Hyes). congruence.
Qed.

Lemma opened_monotone_witness :
  flips (trace host0 requests0 (Some sheet0)) 1 0
  ∧ ¬ flips (trace host0 requests0 (Some sheet0)) 1 1
  ∧ ∃ a b ra rb,
      trace host0 requests0 (Some sheet0) !! 1 = Some a
      ∧ trace host0 requests0 (Some sheet0) !! 2 = Some b
      ∧ row_at a 1 = Some ra ∧ row_at b 1 = Some rb
      ∧ Opened ra = CStr "Yes" ∧ viewCount ra = 0%Z ∧ viewCount rb = 1%Z.
Proof.
  assert (Hflip : flips (trace host0 requests0 (Some sheet0)) 1 0).
  { eexists _, _, _, _. split_and!; reflexivity. }
  pose proof (opened_monotone host0 requests0 sheet0 1 (record0 "tok-1" "No" 0)
                eq_refl (or_introl eq_refl) (ex_intro _ 0%Z eq_refl)) as Hall.
  cbv zeta in Hall. destruct Hall as (_ & _ & Hstep & Hflips).
  split; [exact Hflip|]. split; [apply (Hflips 0 1); [lia|exact Hflip]|].
  eexists _, _, _, _. split; [reflexivity|]. split; [reflexivity|].
  split; [reflexivity|]. split; [reflexivity|].
  match goal with
  | |- Opened ?ra = _ ∧ _ ∧ viewCount ?rb = _ =>
      destruct (Hstep 1 _ _ ra rb eq_refl eq_refl eq_refl eq_refl) as [Hy Hplus];
        [vm_compute; discriminate|]
  end.
  split; [exact Hy|]. split; [reflexivity|].
  rewrite Hplus; [reflexivity|vm_compute; discriminate|vm_compute; discriminate].
Defined.

(** ** The sheet that the script builds

    The script writes the tracking sheet in two places, [recordTrackingId]
    and [recordEmailOpen]; both keep [sheet_ok], which is what the
    statements on opened rows and view counts assume of the sheet. *)

Lemma elem_of_data_rows (sh : list row) r :
  r ∈ drop 1 sh ↔ ∃ j, 1 ≤ j ∧ sh !! j = Some r.
Proof.
  rewrite list_elem_of_lookup. split.
  - intros [j Hj]. rewrite lookup_drop in Hj. exists (1 + j). split; [lia|done].
  - intros (j & Hj & Hl). exists (j - 1). rewrite lookup_drop.
    by replace (1 + (j - 1)) with j by lia.
Qed.

Lemma open_row_ok H now r :
  opened_ok r → views_ok r → opened_ok (open_row H now r) ∧ views_ok (open_row H now r).
Proof.
  intros [Ho|Ho] Hv; unfold open_row, add_view; rewrite Ho; simpl.
  - split; [by right|done].
  - split; [by right|]. left.
    destruct Hv as [(v & -> & Hv)| ->].
    + rewrite plus_one_count. exists (v + 1)%Z. split; [done|lia].
    + exists 1%Z. split; [done|lia].
Qed.

Lemma recordTrackingId_ok now trackingId email sellerId st :
  sheet_ok st → sheet_ok (recordTrackingId now trackingId email sellerId st).
Proof.
  intros Hok sh r [= <-] Hr. unfold appendRow in Hr.
  assert (Hnew : opened_ok (new_record trackingId now email sellerId)
                 ∧ views_ok (new_record trackingId now email sellerId)).
  { split; [by left|]. left. exists 0%Z. split; [done|lia]. }
  destruct st as [[|hd rows]|]; simpl in Hr.
  - by apply elem_of_nil in Hr.
  - rewrite drop_0 in Hr. apply elem_of_app in Hr as [Hr|Hr%list_elem_of_singleton].
    + apply (Hok (hd :: rows) r eq_refl). simpl. by rewrite drop_0.
    + by subst r.
  - apply list_elem_of_singleton in Hr. by subst r.
Qed.

Lemma doGet_ok H now e st : sheet_ok st → sheet_ok (doGet H now e st).1.
Proof.
  intros Hok.
  destruct (doGet_cases H now e st) as [->|(id & _ & _ & _ & ->)]; [done|]. cbn [fst].
  destruct st as [sh|]; [|done].
  destruct (hit_or_miss id sh) as [Hno|(i & r & Hf)].
  { by rewrite recordEmailOpen_miss. }
  rewrite (recordEmailOpen_hit H now id sh i r Hf).
  destruct Hf as (Hi & Hl & _).
  intros sh' r' [= <-] (j & Hj & Hr')%elem_of_data_rows.
  destruct (decide (i = j)) as [<-|Hne].
  - rewrite list_lookup_insert_eq in Hr' by (by eapply lookup_lt_Some).
    injection Hr' as <-.
    apply open_row_ok; apply (Hok sh r eq_refl), elem_of_data_rows; eauto.
  - rewrite list_lookup_insert_ne in Hr' by done.
    apply (Hok sh r' eq_refl), elem_of_data_rows; eauto.
Qed.

(** ** Statistics *)

Lemma sum_max_perm cs cs' : cs ≡ₚ cs' → sum_max cs = sum_max cs'.
Proof.
  induction 1 as [|c cs cs' _ IH|c c' cs|cs cs' cs'' _ IH1 _ IH2]; simpl;
    [done|by rewrite IH|lia|congruence].
Qed.

Lemma views_or_one H r :
  views_ok r →
  js_Number H (js_or (Views r) (CNum 1)) = Num (Z.max (viewCount r) 1).
Proof.
  unfold viewCount, js_or. intros [(v & -> & Hv)| ->]; simpl; [|done].
  destruct (Z.eqb_spec v 0) as [->|Hne]; simpl; [done|]. f_equal. lia.
Qed.

(** The loop of [getEmailStats], counter by counter. *)
Lemma count_rows_opened H w rs : ∀ c,
  c_openedEmails (foldl (count_row H w) c rs)
  = (c_openedEmails c + Z.of_nat (length (opened_rows rs)))%Z.
Proof.
  induction rs as [|r rs IH]; intros c; simpl; [lia|].
  rewrite IH. unfold opened_rows. rewrite filter_cons. unfold count_row.
  destruct (decide (Opened r = CStr "Yes")) as [E|E].
  - apply strict_eq_string_true in E. rewrite E.
    destruct (js_Date H (SendDate r)) as [t|]; [destruct (w <? t)%Z|]; simpl; lia.
  - apply strict_eq_string_false in E. rewrite E.
    destruct (js_Date H (SendDate r)) as [t|]; [destruct (w <? t)%Z|]; simpl; lia.
Qed.

Lemma count_rows_views H w rs : ∀ c t,
  (∀ r, r ∈ rs → Opened r = CStr "Yes" → views_ok r) →
  c_totalViews c = Num t →
  c_totalViews (foldl (count_row H w) c rs) = Num (t + sum_max_views rs).
Proof.
  unfold sum_max_views.
  induction rs as [|r rs IH]; intros c t Hok Hc; simpl.
  { rewrite Hc. f_equal. lia. }
  assert (Hrest : ∀ r', r' ∈ rs → Opened r' = CStr "Yes" → views_ok r').
  { intros r' Hr'. apply Hok. by right. }
  unfold opened_rows. rewrite filter_cons.
  destruct (decide (Opened r = CStr "Yes")) as [E|E].
  - pose proof (views_or_one H r (Hok r ltac:(left) E)) as Hn.
    rewrite (IH _ (t + Z.max (viewCount r) 1)%Z Hrest).
    + rewrite fmap_cons. cbn [sum_max]. unfold viewCount, opened_rows. f_equal. lia.
    + unfold count_row. apply strict_eq_string_true in E. rewrite E.
      destruct (js_Date H (SendDate r)) as [t'|]; [destruct (w <? t')%Z|];
        simpl; by rewrite Hc, Hn.
  - rewrite (IH _ t Hrest); [done|].
    unfold count_row. apply strict_eq_string_false in E. rewrite E.
    destruct (js_Date H (SendDate r)) as [t'|]; [destruct (w <? t')%Z|]; simpl; done.
Qed.

(** With at least one data row, [getEmailStats] computes the numbers from
    the loop over the data rows. *)
Lemma getEmailStats_data H now hd r rs :
  ∃ s, getEmailStats H now (Some (hd :: r :: rs)) = StatsOk s
       ∧ totalEmails s = Z.of_nat (length (r :: rs))
       ∧ openedEmails s = Z.of_nat (length (opened_rows (r :: rs)))
       ∧ openRate s
         = js_toString H (percentage H (openedEmails s) (totalEmails s)) +:+ "%"
       ∧ averageViews s
         = (if (0 <? openedEmails s)%Z
            then CStr (toFixed2 H (double_div (double_of_number (totalViews s))
                                              (double_of_Z (openedEmails s))))
            else CNum 0)
       ∧ ((∀ r', r' ∈ r :: rs → Opened r' = CStr "Yes" → views_ok r') →
          totalViews s = Num (sum_max_views (r :: rs))).
Proof.
  unfold getEmailStats.
  change (getValues (hd :: r :: rs)) with (hd :: r :: rs).
  change (drop 1 (hd :: r :: rs)) with (r :: rs).
  change (length (hd :: r :: rs) <=? 1)%nat with false. cbv iota.
  eexists. split; [reflexivity|].
  cbn [totalEmails openedEmails openRate averageViews totalViews].
  assert (Hn : (Z.of_nat (length (hd :: r :: rs)) - 1)%Z = Z.of_nat (length (r :: rs))).
  { cbn [length]. lia. }
  rewrite Hn, count_rows_opened. cbn [c_openedEmails]. rewrite Z.add_0_l.
  split_and!; [done..|].
  intros Hok. erewrite (count_rows_views H _ _ _ 0%Z Hok); [|reflexivity].
  by rewrite Z.add_0_l.
Qed.

(** C6. On a sheet with at least one data row in which every opened row
    has a count (or a blank) in its [Views] cell, the [totalViews] that
    [getEmailStats] returns is the sum, over the rows with [Opened = Yes],
    of the larger of the view count and 1; the other rows add nothing.
    The sum is within [MAX_SAFE_INTEGER]: the counts being 0 or more, so
    is every sum that the loop passes through, and the doubles that the
    script adds give it exactly. *)
Theorem totalViews_sum H now (sh : list row) :
  1 < length sh →
  (∀ r, r ∈ drop 1 sh → Opened r = CStr "Yes" → views_ok r) →
  (sum_max_views (drop 1 sh) ≤ MAX_SAFE_INTEGER)%Z →
  ∃ s, getEmailStats H now (Some sh) = StatsOk s
       ∧ totalViews s = Num (sum_max_views (drop 1 sh)).
Proof.
  intros Hlen Hok _. destruct sh as [|hd [|r rs]]; [simpl in Hlen; lia..|].
  destruct (getEmailStats_data H now hd r rs) as (s & Hs & _ & _ & _ & _ & Hviews).
  exists s. split; [done|]. by apply Hviews.
Qed.

Lemma totalViews_sum_witness :
  ∃ s, getEmailStats host0 2000 (Some sheet0) = StatsOk s ∧ totalViews s = Num 2.
Proof.
  destruct (totalViews_sum host0 2000 sheet0) as (s & Hs & Ht).
  - simpl. lia.
  - intros r Hr _. simpl in Hr.
    apply elem_of_cons in Hr as [->|Hr]; [left; exists 0%Z; split; [reflexivity|lia]|].
    apply elem_of_cons in Hr as [->|Hr]; [left; exists 2%Z; split; [reflexivity|lia]|].
    by apply elem_of_nil in Hr.
  - vm_compute. discriminate.
  - exists s. split; [exact Hs|]. rewrite Ht. reflexivity.
Defined.

(** C7. With no tracking sheet, or a tracking sheet that has no data row
    (the header only, or nothing), [getEmailStats] returns a message and
    no number: the loop and the divisions are not reached.  When it does
    compute, the divisor [totalEmails] is positive. *)
Theorem stats_no_data H now :
  getEmailStats H now None
  = StatsError "Tracking sheet not found. It will be created automatically after emails are sent."
  ∧ (∀ sh, length sh ≤ 1 →
       getEmailStats H now (Some sh)
       = StatsError "No tracking data available. Statistics will appear after emails are sent.")
  ∧ (∀ st s, getEmailStats H now st = StatsOk s → (0 < totalEmails s)%Z).
Proof.
  split_and!; [done| |].
  - intros [|hd [|r rs]] Hlen; [done|done|simpl in Hlen; lia].
  - intros [[|hd [|r rs]]|] s Hs; [done|done| |done].
    destruct (getEmailStats_data H now hd r rs) as (s' & Hs' & Ht & _).
    assert (s' = s) as -> by congruence. rewrite Ht. cbn [length]. lia.
Qed.

(** C2, as the code computes it.  On a sheet of exactly ten records of
    which four are opened, one with [Views = 3] and three with [Views = 0],
    [getEmailStats] returns [openedEmails = 4] and [openRate = 40.00%], and
    [totalViews = 6] (3 + 1 + 1 + 1: an opened row counts its [Views], or 1
    when that is 0) and [averageViews = 1.50]. *)
Theorem stats_scenario H now hd (rows : list row) :
  length rows = 10 →
  Views <$> opened_rows rows ≡ₚ [CNum 3; CNum 0; CNum 0; CNum 0] →
  ∃ s, getEmailStats H now (Some (hd :: rows)) = StatsOk s
       ∧ totalEmails s = 10%Z
       ∧ openedEmails s = 4%Z
       ∧ openRate s = "40.00%"
       ∧ totalViews s = Num 6
       ∧ averageViews s = CStr "1.50".
Proof.
  intros Hlen Hperm. destruct rows as [|r rs]; [done|].
  destruct (getEmailStats_data H now hd r rs)
    as (s & Hs & Htotal & Hopened & Hrate & Havg & Hviews).
  assert (Ho : openedEmails s = 4%Z).
  { rewrite Hopened, <- (length_fmap Views), Hperm. reflexivity. }
  assert (Ht : totalEmails s = 10%Z) by (rewrite Htotal, Hlen; reflexivity).
  assert (Hv : totalViews s = Num 6).
  { rewrite Hviews.
    - unfold sum_max_views. by rewrite (sum_max_perm _ _ Hperm).
    - intros r' Hr' Hyes.
      assert (Hin : Views r' ∈ Views <$> opened_rows (r :: rs)).
      { apply list_elem_of_fmap_2. by apply list_elem_of_filter. }
      rewrite Hperm in Hin. left.
      repeat (apply elem_of_cons in Hin as [->|Hin]; [eexists; split; [reflexivity|lia]|]).
      by apply elem_of_nil in Hin. }
  exists s. split_and!; [done|done|done| |done|].
  - rewrite Hrate, Ho, Ht. vm_compute. reflexivity.
  - rewrite Havg, Ho, Hv. vm_compute. reflexivity.
Qed.

Lemma stats_scenario_witness :
  ∃ s, getEmailStats host0 2000 (Some sheet10) = StatsOk s
       ∧ totalEmails s = 10%Z
       ∧ openedEmails s = 4%Z
       ∧ openRate s = "40.00%"
       ∧ totalViews s = Num 6
       ∧ averageViews s = CStr "1.50".
Proof.
  apply (stats_scenario host0 2000 header (drop 1 sheet10)); reflexivity.
Defined.

(** C2 as the specification words it fails on the code: on that sheet the
    total is 6 and the average 1.50, not 7 and 1.75. *)
Lemma stats_scenario_counterexample :
  length (drop 1 sheet10) = 10
  ∧ Views <$> opened_rows (drop 1 sheet10) = [CNum 3; CNum 0; CNum 0; CNum 0]
  ∧ ∃ s, getEmailStats host0 2000 (Some sheet10) = StatsOk s
         ∧ openedEmails s = 4%Z
         ∧ totalViews s = Num 6 ∧ totalViews s ≠ Num 7
         ∧ averageViews s = CStr "1.50" ∧ averageViews s ≠ CStr "1.75".
Proof.
  split; [reflexivity|]. split; [reflexivity|].
  eexists. split; [reflexivity|]. by split_and!.
Qed.

(** ** Issuing a token *)

Lemma append_assoc (a b c : string) : (a +:+ b) +:+ c = a +:+ (b +:+ c).
Proof.
  induction a as [|x a IH]; [done|].
  change (String x ((a +:+ b) +:+ c) = String x (a +:+ (b +:+ c))). by f_equal.
Qed.

(** C9. A call of [generateTrackingPixel] appends exactly one row to the
    tracking sheet (after the header, when it has to create the sheet): the
    new token, the address and seller given, the send date [now], a blank
    open date, [Opened = No] and [Views = 0].  It returns the image markup
    whose source is [WEB_APP_URL?id=<token>&action=open] for that token. *)
Theorem generateTrackingPixel_record uuid now (sellerEmail sellerId : cell) (st : store) :
  ∃ sh' markup,
    generateTrackingPixel uuid now sellerEmail sellerId st = (Some sh', markup)
    ∧ sh' = rows_or_header st ++ [new_record uuid now sellerEmail sellerId]
    ∧ length sh' = S (length (rows_or_header st))
    ∧ last sh' = Some (Row (CStr uuid) sellerEmail sellerId (CDate now)
                           (CStr EmptyString) (CStr "No") (CNum 0))
    ∧ markup = "<img src=" +:+ dquote
               +:+ CONFIG.WEB_APP_URL +:+ "?id=" +:+ uuid +:+ "&action=open"
               +:+ dquote +:+ " width=" +:+ dquote +:+ "1" +:+ dquote
               +:+ " height=" +:+ dquote +:+ "1" +:+ dquote
               +:+ " alt=" +:+ dquote +:+ dquote
               +:+ " style=" +:+ dquote +:+ "display:none" +:+ dquote +:+ ">".
Proof.
  exists (rows_or_header st ++ [new_record uuid now sellerEmail sellerId]),
         (pixel_markup (tracking_url uuid)).
  split_and!.
  - by destruct st.
  - done.
  - rewrite length_app. simpl. lia.
  - by rewrite last_snoc.
  - unfold pixel_markup, tracking_url.
    generalize dquote. intros q.
    rewrite !append_assoc. reflexivity.
Qed.

(** The row of a token just issued is the row that a hit of its URL finds,
    when no data row had that token and the sheet had its header. *)
Lemma issued_token_first_hit uuid now (sellerEmail sellerId : cell) (st : store) :
  (∀ sh, st = Some sh → sh ≠ [] ∧ no_hit uuid sh) →
  ∃ sh', (generateTrackingPixel uuid now sellerEmail sellerId st).1 = Some sh'
         ∧ first_hit uuid sh' (length sh' - 1) (new_record uuid now sellerEmail sellerId).
Proof.
  intros Hst. eexists. split; [reflexivity|].
  change (first_hit uuid (rows_or_header st ++ [new_record uuid now sellerEmail sellerId])
            (length (rows_or_header st ++ [new_record uuid now sellerEmail sellerId]) - 1)
            (new_record uuid now sellerEmail sellerId)).
  assert (Hrows : rows_or_header st ≠ [] ∧ no_hit uuid (rows_or_header st)).
  { destruct st as [sh|]; [by apply Hst|]. split; [done|].
    intros [|[|j]] r Hj Hl; [lia|done|done]. }
  destruct Hrows as [Hne Hno]. set (rows := rows_or_header st) in *.
  rewrite length_app. cbn [length]. replace (length rows + 1 - 1) with (length rows) by lia.
  split_and!.
  - destruct rows; [done|simpl; lia].
  - by rewrite lookup_app_r, Nat.sub_diag by lia.
  - done.
  - intros j r' Hj Hl. rewrite lookup_app_l in Hl by lia. apply (Hno j r'); [lia|done].
Qed.

(** ** Sending to the recipients of one seller row *)

Lemma filter_all {A} (P : A → Prop) `{∀ x, Decision (P x)} (l : list A) :
  Forall P l → filter P l = l.
Proof.
  induction 1 as [|x l Hx _ IH]; [done|]. by rewrite filter_cons, decide_True, IH.
Qed.

Lemma send_each_spec H data subject html addresses :
  ∃ sent, send_each H data subject html addresses = (sent, Z.of_nat (length sent))
          ∧ mail_to <$> sent = filter (λ a, isValidEmail a = true) addresses
          ∧ Forall (λ m, mail_htmlBody m = html ∧ mail_subject m = subject) sent.
Proof.
  induction addresses as [|a rest (sent & IH & Hto & Hbody)]; simpl.
  { exists []. by split_and!. }
  rewrite IH, filter_cons. destruct (isValidEmail a) eqn:E.
  - eexists (_ :: sent). split_and!.
    + f_equal. simpl length. lia.
    + rewrite decide_True by done. rewrite fmap_cons. cbn [mail_to]. by rewrite Hto.
    + by constructor.
  - exists sent. split_and!; [done| |done].
    by rewrite decide_False by (by intros ?).
Qed.

(** C3, as the code does it.  For a seller row whose email field is a
    string, [sendNotificationEmail] issues one token and appends one row to
    the tracking sheet for the whole field, however many addresses it
    lists; then it sends one mail to each valid address of the list, every
    mail with the same body, which ends with the image of that one token. *)
Theorem sendNotificationEmail_one_record H uuid now content data subject w s :
  sellerEmail data = CStr s →
  ∃ sent,
    sendNotificationEmail H uuid now content data subject w
    = ({| tracking := Some (rows_or_header (tracking w)
                            ++ [new_record uuid now (CStr s) (sellerId data)]);
          outbox := outbox w ++ sent |},
       bool_decide (sent ≠ []))
    ∧ mail_to <$> sent = valid_addresses s
    ∧ Forall (λ m, mail_htmlBody m = content +:+ pixel_markup (tracking_url uuid)) sent
    ∧ (Forall (λ a, isValidEmail a = true) (map trim (split_on "," s)) →
       length sent = length (split_on "," s)).
Proof.
  intros Hs. unfold sendNotificationEmail, generateTrackingPixel. rewrite Hs.
  destruct (send_each_spec H data subject
              (content +:+ pixel_markup (tracking_url uuid))
              (map trim (split_on "," s))) as (sent & Hsend & Hto & Hbody).
  exists sent. unfold tracking_url in *. rewrite Hsend. split_and!.
  - f_equal. destruct sent; [done|]. simpl length.
    rewrite bool_decide_eq_true_2 by done. apply Z.ltb_lt. lia.
  - done.
  - eapply Forall_impl; [exact Hbody|]. by intros m [? _].
  - intros Hall. rewrite <- (length_fmap mail_to), Hto.
    unfold valid_addresses. by rewrite filter_all, length_map.
Qed.

Lemma sendNotificationEmail_one_record_witness :
  ∃ sent,
    (sendNotificationEmail host0 "uuid-1" 7 "<p>Hello</p>" data0 "Result" world0).1
    = {| tracking := Some [header; new_record "uuid-1" 7 (CStr "a@x.com, b@x.com") (CStr "S1")];
         outbox := sent |}
    ∧ mail_to <$> sent = ["a@x.com"; "b@x.com"].
Proof.
  destruct (sendNotificationEmail_one_record host0 "uuid-1" 7 "<p>Hello</p>"
              data0 "Result" world0 "a@x.com, b@x.com" eq_refl)
    as (sent & Heq & Hto & _).
  exists sent. rewrite Heq. split; [reflexivity|]. rewrite Hto. reflexivity.
Defined.

(** C3 as the specification words it fails on the code: for the field
    [a@x.com, b@x.com] two mails go out, but the tracking sheet gets one
    row, not two, and that row holds the whole field, not one recipient. *)
Lemma sendNotificationEmail_counterexample :
  map trim (split_on "," "a@x.com, b@x.com") = ["a@x.com"; "b@x.com"]
  ∧ forallb isValidEmail ["a@x.com"; "b@x.com"] = true
  ∧ mail_to <$> outbox (sendNotificationEmail host0 "uuid-1" 7 "<p>Hello</p>"
                          data0 "Result" world0).1
    = ["a@x.com"; "b@x.com"]
  ∧ tracking (sendNotificationEmail host0 "uuid-1" 7 "<p>Hello</p>" data0 "Result" world0).1
    = Some [header; new_record "uuid-1" 7 (CStr "a@x.com, b@x.com") (CStr "S1")]
  ∧ length [header; new_record "uuid-1" 7 (CStr "a@x.com, b@x.com") (CStr "S1")]
    ≠ length [header] + 2.
Proof.
  split_and!; [reflexivity..|]. simpl. lia.
Qed.

(** ** Hits that overlap *)

Lemma count_done_app ts1 ts2 : count_done (ts1 ++ ts2) = count_done ts1 + count_done ts2.
Proof. induction ts1 as [|t ts1 IH]; simpl; [done|]. rewrite IH. lia. Qed.

Lemma count_done_finished ts : finished ts → count_done ts = length ts.
Proof. induction 1 as [|t ts Ht _ IH]; simpl; [done|]. by rewrite Ht, IH. Qed.

Lemma alter_at {A} (f : A → A) (l : list A) i x :
  l !! i = Some x → alter f i l = <[i := f x]> l.
Proof.
  intros Hl. apply list_eq. intros j. destruct (decide (i = j)) as [<-|Hne].
  - rewrite list_lookup_alter_eq, Hl, list_lookup_insert_eq; [done|].
    by eapply lookup_lt_Some.
  - by rewrite list_lookup_alter_ne, list_lookup_insert_ne.
Qed.

(** One execution that runs alone does what [recordEmailOpen] does. *)
Lemma run_writes H ts1 ts2 ws : ∀ sh,
  rtc (step H) (sh, ts1 ++ Writing ws :: ts2)
               (apply_writes ws sh, ts1 ++ Writing [] :: ts2).
Proof.
  induction ws as [|w ws IH]; intros sh; [done|].
  eapply rtc_l; [apply step_write|]. apply IH.
Qed.

Lemma run_alone H ts1 ts2 now id sh :
  rtc (step H) (sh, ts1 ++ Waiting now id :: ts2)
      (apply_writes (open_writes H now id 1 (drop 1 (getValues sh))) sh,
       ts1 ++ Writing [] :: ts2).
Proof. eapply rtc_l; [apply step_read|]. apply run_writes. Qed.

(** The serial schedule is one of the schedules. *)
Lemma run_serial H tok nows : ∀ sh ts1,
  rtc (step H) (sh, ts1 ++ started tok nows)
      (serial H tok nows sh, ts1 ++ ((λ _, Writing []) <$> nows)).
Proof.
  induction nows as [|now nows IH]; intros sh ts1; [done|].
  etrans; [apply run_alone|].
  cbn [serial foldl fmap list_fmap].
  specialize (IH (apply_writes (open_writes H now tok 1 (drop 1 (getValues sh))) sh)
                 (ts1 ++ [Writing []])).
  by rewrite <- !app_assoc in IH.
Qed.

Lemma step_threads H c c' : step H c c' → length c'.2 = length c.2.
Proof. intros [sh ts1 ts2 now id|sh ts1 ts2 w ws]; simpl; by rewrite !length_app. Qed.

Lemma rtc_threads H c c' : rtc (step H) c c' → length c'.2 = length c.2.
Proof.
  induction 1 as [|c1 c2 c3 Hs _ IH]; [done|]. rewrite IH. by apply (step_threads H).
Qed.

Section Race.
Context (H : Host) (tok : string) (i : nat).

Lemma thread_ok_mono r r' d d' t :
  d ≤ d' → (Opened r = CStr "Yes" → Opened r' = CStr "Yes") →
  thread_ok tok i r d t → thread_ok tok i r' d' t.
Proof.
  intros Hd Hy [?|[?|[?|[(w & ? & ? & ?)|[? ?]]]]]; unfold thread_ok.
  - by left.
  - by right; left.
  - by right; right; left.
  - right; right; right; left. exists w. split_and!; [done|lia|lia|auto].
  - right; right; right; right. auto.
Qed.

Lemma race_inv_step c c' : race_inv tok i c → step H c c' → race_inv tok i c'.
Proof.
  intros (r & v & Hf & Ho & Hv & Hv0 & Hno & Hyes & Hts) Hstep.
  pose proof Hf as (Hi & Hl & Ht & Hb).
  destruct Hstep as [sh ts1 ts2 now id|sh ts1 ts2 w ws]; cbn [fst snd] in *;
    unfold race_inv; cbn [fst snd]; rewrite !count_done_app in *;
    cbn [count_done is_done] in *;
    apply Forall_app in Hts as [Hts1 Hts]; apply Forall_cons in Hts as [Hthis Hts2].
  - (* an execution reads the sheet *)
    destruct Hthis as [[now' E]|[[? E]|[E|[(? & E & _)|[E _]]]]]; try discriminate E.
    injection E as -> ->. rewrite (snapshot_hit H now' tok sh i r Hf).
    exists r, v. unfold row_writes. destruct Ho as [Hn|Hy].
    + assert (E : strict_eq_string (Opened r) "No" = true)
        by (by apply strict_eq_string_true).
      rewrite E. split_and!; [done|by left|done..|].
      apply Forall_app; split; [done|]. apply Forall_cons; split; [|done].
      right; left. by exists now'.
    + assert (E : strict_eq_string (Opened r) "No" = false)
        by (apply strict_eq_string_false; congruence).
      rewrite E, Hv, plus_one_count. split_and!; [done|by right|done..|].
      apply Forall_app; split; [done|]. apply Forall_cons; split; [|done].
      right; right; right; left. exists (v + 1)%Z.
      specialize (Hyes Hy). split_and!; [done|lia|lia|done].
  - (* an execution makes its next write *)
    destruct Hthis as [[? E]|[[now E]|[E|[(v' & E & Hw & Hy)|[E _]]]]]; try discriminate E;
      injection E as -> ->; rewrite !Nat.add_1_r; cbn [apply_write];
      rewrite (alter_at _ sh i r Hl).
    + (* the open date *)
      exists (set_column 5 (CDate now) r), v.
      split_and!; [by apply (first_hit_insert tok sh i r)|done..|].
      apply Forall_app; split; [done|]. apply Forall_cons; split; [|done].
      right; right; left. by rewrite Nat.add_1_r.
    + (* the word Yes *)
      exists (set_column 6 (CStr "Yes") r), v.
      split_and!; [by apply (first_hit_insert tok sh i r)|by right|done|done|done| |].
      * intros _. destruct Ho as [Hn|Hy]; [rewrite (Hno Hn); lia|specialize (Hyes Hy); lia].
      * apply Forall_app; split; [|apply Forall_cons; split; [by right; right; right; right|]];
          (eapply Forall_impl; [eassumption|]); intros t; apply thread_ok_mono; (lia || done).
    + (* a view count *)
      exists (set_column 7 (CNum v') r), v'.
      split_and!; [by apply (first_hit_insert tok sh i r)|by right|done|lia| | |].
      * simpl. congruence.
      * intros _. lia.
      * apply Forall_app; split; [|apply Forall_cons; split; [by right; right; right; right|]];
          (eapply Forall_impl; [eassumption|]); intros t; apply thread_ok_mono; (lia || done).
Qed.

Lemma race_inv_rtc c c' : race_inv tok i c → rtc (step H) c c' → race_inv tok i c'.
Proof. intros Hc Hrun. induction Hrun; eauto using race_inv_step. Qed.

Lemma race_inv_start sh r nows :
  first_hit tok sh i r → Opened r = CStr "No" → Views r = CNum 0 →
  race_inv tok i (sh, started tok nows).
Proof.
  intros Hf Ho Hv. exists r, 0%Z. cbn [fst snd].
  split_and!; [done|by left|done|done|done|by rewrite Ho| ].
  apply Forall_fmap, Forall_true. intros now. left. by exists now.
Qed.

Lemma race_inv_end sh ts :
  race_inv tok i (sh, ts) → finished ts → ts ≠ [] →
  ∃ r v, sh !! i = Some r ∧ Opened r = CStr "Yes" ∧ Views r = CNum v
         ∧ (0 ≤ v ≤ Z.of_nat (length ts) - 1)%Z.
Proof.
  intros (r & v & Hf & Ho & Hv & Hv0 & Hno & Hyes & Hts) Hfin Hne. cbn [fst snd] in *.
  assert (Hy : Opened r = CStr "Yes").
  { destruct ts as [|t ts]; [done|].
    apply Forall_cons in Hts as [Ht _]. apply Forall_cons in Hfin as [Hd _].
    destruct Ht as [[? ->]|[[? ->]|[->|[(? & -> & _)|[_ ?]]]]]; done. }
  exists r, v. destruct Hf as (_ & Hl & _).
  specialize (Hyes Hy). rewrite (count_done_finished ts Hfin) in Hyes.
  split_and!; [done..|lia].
Qed.

End Race.

(** C8, as the code does it.  Start K hits, K at least 1, on the first
    data row of a token that is not opened and has no view.  Run one after
    the other they leave it opened with K - 1 views, and that schedule is
    one the script can take.  Whatever the interleaving of their reads and
    writes, once all have returned the row is opened and its view count is
    between 0 and K - 1: a hit that read the sheet before the first open was
    written counts as one more first open and its view is not counted. *)
Theorem concurrent_hits H tok (sh : list row) i r nows :
  first_hit tok sh i r → Opened r = CStr "No" → Views r = CNum 0 → nows ≠ [] →
  (∃ sh' r', rtc (step H) (sh, started tok nows) (sh', (λ _, Writing []) <$> nows)
             ∧ sh' !! i = Some r' ∧ Opened r' = CStr "Yes"
             ∧ Views r' = CNum (Z.of_nat (length nows) - 1))
  ∧ (∀ sh' ts', rtc (step H) (sh, started tok nows) (sh', ts') → finished ts' →
       ∃ r' v, sh' !! i = Some r' ∧ Opened r' = CStr "Yes" ∧ Views r' = CNum v
               ∧ (0 ≤ v ≤ Z.of_nat (length nows) - 1)%Z).
Proof.
  intros Hf Ho Hv Hne. split.
  - destruct nows as [|t1 times]; [done|].
    eexists _, _. split; [apply (run_serial H tok (t1 :: times) sh [])|].
    rewrite (serial_fresh H tok sh i r t1 times Hf Ho Hv).
    split.
    { apply list_lookup_insert_eq. destruct Hf as (_ & Hl & _). by eapply lookup_lt_Some. }
    split; reflexivity.
  - intros sh' ts' Hrun Hfin.
    pose proof (rtc_threads H _ _ Hrun) as Hlen. cbn [snd] in Hlen.
    unfold started in Hlen. rewrite length_fmap in Hlen.
    pose proof (race_inv_rtc H tok i _ _ (race_inv_start tok i sh r nows Hf Ho Hv) Hrun)
      as Hinv.
    destruct (race_inv_end tok i sh' ts' Hinv Hfin) as (r' & v & ? & ? & ? & ?).
    { intros ->. by destruct nows. }
    exists r', v. rewrite <- Hlen. split_and!; [done..|lia|lia].
Qed.

Lemma racy_run :
  rtc (step host0) (sheet0, started "tok-1" [10; 20]%Z)
      (sheet_raced, [Writing []; Writing []]).
Proof.
  eapply rtc_l; [exact (step_read host0 sheet0 [] [Waiting 20 "tok-1"] 10 "tok-1")|].
  eapply rtc_l;
    [exact (step_read host0 sheet0
              [Writing [SetValue 2 5 (CDate 10); SetValue 2 6 (CStr "Yes")]] [] 20 "tok-1")|].
  eapply rtc_l;
    [exact (step_write host0 _ []
              [Writing [SetValue 2 5 (CDate 20); SetValue 2 6 (CStr "Yes")]]
              (SetValue 2 5 (CDate 10)) [SetValue 2 6 (CStr "Yes")])|].
  eapply rtc_l;
    [exact (step_write host0 _ []
              [Writing [SetValue 2 5 (CDate 20); SetValue 2 6 (CStr "Yes")]]
              (SetValue 2 6 (CStr "Yes")) [])|].
  eapply rtc_l;
    [exact (step_write host0 _ [Writing []] []
              (SetValue 2 5 (CDate 20)) [SetValue 2 6 (CStr "Yes")])|].
  eapply rtc_l;
    [exact (step_write host0 _ [Writing []] [] (SetValue 2 6 (CStr "Yes")) [])|].
  apply rtc_refl.
Qed.

Lemma concurrent_hits_witness :
  (∃ sh' r', rtc (step host0) (sheet0, started "tok-1" [10; 20]%Z)
                 (sh', [Writing []; Writing []])
             ∧ sh' !! 1 = Some r' ∧ Opened r' = CStr "Yes" ∧ Views r' = CNum 1)
  ∧ ∃ r' v, sheet_raced !! 1 = Some r' ∧ Opened r' = CStr "Yes" ∧ Views r' = CNum v
            ∧ (0 ≤ v ≤ 1)%Z.
Proof.
  destruct (concurrent_hits host0 "tok-1" sheet0 1 (record0 "tok-1" "No" 0) [10; 20]%Z
              first_hit_sheet0 eq_refl eq_refl ltac:(discriminate)) as [Hserial Hany].
  split; [exact Hserial|].
  apply (Hany sheet_raced [Writing []; Writing []] racy_run).
  repeat constructor.
Defined.

(** C8 as the specification words it fails on the code: two hits of a
    fresh token, the second reading the sheet before the first has written,
    both return and the view count is 0, not 1; the open date is that of
    the second hit. *)
Lemma concurrent_hits_counterexample :
  first_hit "tok-1" sheet0 1 (record0 "tok-1" "No" 0)
  ∧ rtc (step host0) (sheet0, started "tok-1" [10; 20]%Z)
        (sheet_raced, [Writing []; Writing []])
  ∧ finished [Writing []; Writing []]
  ∧ Views <$> sheet_raced !! 1 = Some (CNum 0)
  ∧ CNum 0 ≠ CNum (Z.of_nat (length [10; 20]%Z) - 1).
Proof.
  split_and!; [exact first_hit_sheet0|exact racy_run|repeat constructor|reflexivity|done].
Qed.

(** ** What the address pattern accepts *)

Lemma append_nil_r (s : string) : s +:+ EmptyString = s.
Proof.
  induction s as [|c s IH]; [done|].
  change (String c (s +:+ EmptyString) = String c s). by f_equal.
Qed.

Lemma append_cons c (s t : string) : String c s +:+ t = String c (s +:+ t).
Proof. reflexivity. Qed.

Lemma append_eq_nil (s t : string) :
  s +:+ t = EmptyString → s = EmptyString ∧ t = EmptyString.
Proof. destruct s; [done|]. rewrite append_cons. discriminate. Qed.

Lemma append_eq_cons (s t : string) c u :
  s +:+ t = String c u →
  (s = EmptyString ∧ t = String c u) ∨ ∃ s', s = String c s' ∧ u = s' +:+ t.
Proof.
  destruct s as [|c' s]; [by left|]. rewrite append_cons. intros [= -> <-].
  right. by exists s.
Qed.

Lemma nullable_matches r : nullable r = true ↔ matches r EmptyString.
Proof.
  split.
  - induction r as [| |p|r1 IH1 r2 IH2|r1 IH1 r2 IH2|r IH]; simpl; intros Hn;
      try discriminate.
    + constructor.
    + apply andb_true_iff in Hn as [H1 H2].
      change EmptyString with (EmptyString +:+ EmptyString). constructor; auto.
    + apply orb_true_iff in Hn as [H1|H2]; [apply matches_alt_l|apply matches_alt_r]; auto.
    + constructor.
  - intros Hm. remember EmptyString as s eqn:Hs.
    induction Hm as [|p c Hp|r1 r2 s1 s2 _ IH1 _ IH2|r1 r2 s _ IH|r1 r2 s _ IH| |r s1 s2 _ _ _ _];
      simpl; try done.
    + apply append_eq_nil in Hs as [-> ->]. by rewrite IH1, IH2.
    + by rewrite IH.
    + rewrite IH by done. apply orb_true_r.
Qed.

(** A match of a starred expression on a non-empty string starts with a
    non-empty match of the expression. *)
Lemma matches_star_cons_inv r c s :
  matches (Rstar r) (String c s) →
  ∃ s1 s2, s = s1 +:+ s2 ∧ matches r (String c s1) ∧ matches (Rstar r) s2.
Proof.
  intros Hm. remember (Rstar r) as r' eqn:Hr. remember (String c s) as t eqn:Ht.
  revert c s Ht.
  induction Hm as [| | | | | |r0 s1 s2 H1 _ H2 IH2]; intros c' s' Ht; try discriminate.
  injection Hr as ->.
  apply append_eq_cons in Ht as [[-> ->]|(s1' & -> & ->)].
  - by apply IH2.
  - by exists s1', s2.
Qed.

Lemma deriv_matches c r : ∀ s, matches (deriv c r) s ↔ matches r (String c s).
Proof.
  induction r as [| |p|r1 IH1 r2 IH2|r1 IH1 r2 IH2|r IH]; intros s; simpl.
  - split; inversion 1.
  - split; inversion 1.
  - destruct (p c) eqn:Hp; split; intros Hm.
    + inversion Hm; subst. by constructor.
    + inversion Hm; subst. constructor.
    + inversion Hm.
    + inversion Hm; subst. congruence.
  - assert (Hcat : matches (Rcat (deriv c r1) r2) s
                   ↔ ∃ s1 s2, s = s1 +:+ s2 ∧ matches r1 (String c s1) ∧ matches r2 s2).
    { split.
      - inversion 1; subst. eexists _, _. split; [done|]. split; [by apply IH1|done].
      - intros (s1 & s2 & -> & H1 & H2). constructor; [by apply IH1|done]. }
    assert (Hsplit : matches (Rcat r1 r2) (String c s)
                     ↔ (matches r1 EmptyString ∧ matches r2 (String c s))
                       ∨ ∃ s1 s2, s = s1 +:+ s2 ∧ matches r1 (String c s1) ∧ matches r2 s2).
    { split.
      - inversion 1 as [| |? ? s1 s2 H1 H2 E1 E2| | | |]; subst.
        apply append_eq_cons in E2 as [[-> ->]|(s1' & -> & ->)]; [by left|right; eauto].
      - intros [[H1 H2]|(s1 & s2 & -> & H1 & H2)].
        + change (String c s) with (EmptyString +:+ String c s). by constructor.
        + rewrite <- append_cons. by constructor. }
    rewrite Hsplit. destruct (nullable r1) eqn:Hn.
    + split.
      * inversion 1; subst; [right; by apply Hcat|left].
        split; [by apply nullable_matches|by apply IH2].
      * intros [[_ H2]|H]; [apply matches_alt_r; by apply IH2|apply matches_alt_l; by apply Hcat].
    + rewrite Hcat. split; [by right|]. intros [[H1 _]|H]; [|done].
      apply nullable_matches in H1. congruence.
  - split.
    + inversion 1; subst; [apply matches_alt_l; by apply IH1|apply matches_alt_r; by apply IH2].
    + inversion 1; subst; [apply matches_alt_l; by apply IH1|apply matches_alt_r; by apply IH2].
  - split.
    + inversion 1; subst. rewrite <- append_cons. constructor; [by apply IH|done].
    + intros (s1 & s2 & -> & H1 & H2)%matches_star_cons_inv.
      constructor; [by apply IH|done].
Qed.

(** The matcher by derivatives accepts exactly the strings that match. *)
Lemma regex_test_matches s : ∀ r, regex_test r s = true ↔ matches r s.
Proof.
  induction s as [|c s IH]; intros r; simpl.
  - apply nullable_matches.
  - rewrite IH. apply deriv_matches.
Qed.

Lemma matches_cat_iff r1 r2 s :
  matches (Rcat r1 r2) s ↔ ∃ s1 s2, s = s1 +:+ s2 ∧ matches r1 s1 ∧ matches r2 s2.
Proof.
  split.
  - inversion 1; subst. eauto.
  - intros (s1 & s2 & -> & H1 & H2). by constructor.
Qed.

Lemma matches_class_iff p s :
  matches (Rclass p) s ↔ ∃ c, s = String c EmptyString ∧ p c = true.
Proof.
  split.
  - inversion 1; subst. eauto.
  - intros (c & -> & Hp). by constructor.
Qed.

Lemma matches_star_class p s :
  matches (Rstar (Rclass p)) s ↔ all_chars p s = true.
Proof.
  split.
  - intros Hm. remember (Rstar (Rclass p)) as r eqn:Hr.
    induction Hm as [| | | | | |r0 s1 s2 H1 _ _ IH2]; try discriminate; [done|].
    injection Hr as ->. apply matches_class_iff in H1 as (c & -> & Hp).
    rewrite append_cons. simpl. rewrite Hp. by apply IH2.
  - induction s as [|c s IH]; simpl; [constructor|].
    intros [Hp Hs]%andb_true_iff.
    change (String c s) with (String c EmptyString +:+ s).
    constructor; [by constructor|auto].
Qed.

Lemma matches_plus_class p s :
  matches (Rplus (Rclass p)) s ↔ s ≠ EmptyString ∧ all_chars p s = true.
Proof.
  unfold Rplus. rewrite matches_cat_iff. split.
  - intros (s1 & s2 & -> & (c & -> & Hp)%matches_class_iff & H2%matches_star_class).
    rewrite append_cons. split; [done|]. simpl. by rewrite Hp.
  - intros [Hne Hall]. destruct s as [|c s]; [done|].
    simpl in Hall. apply andb_true_iff in Hall as [Hp Hs].
    exists (String c EmptyString), s. split; [done|].
    split; [by constructor|by apply matches_star_class].
Qed.

Lemma is_char_iff n c : n < 256 → is_char n c = true ↔ c = ascii_of_nat n.
Proof.
  intros Hn. unfold is_char. rewrite Nat.eqb_eq. split.
  - intros <-. by rewrite ascii_nat_embedding.
  - intros ->. by apply nat_ascii_embedding.
Qed.

Lemma emailRegex_test s :
  regex_test emailRegex s = true
  ↔ ∃ a b c, s = a +:+ "@" +:+ b +:+ "." +:+ c
             ∧ address_part a ∧ address_part b ∧ address_part c.
Proof.
  unfold address_part.
  rewrite regex_test_matches. unfold emailRegex.
  rewrite matches_cat_iff. split.
  - intros (a & t1 & -> & Ha%matches_plus_class & Ht1).
    apply matches_cat_iff in Ht1 as (x & t2 & -> & (cx & -> & Hx)%matches_class_iff & Ht2).
    apply matches_cat_iff in Ht2 as (b & t3 & -> & Hb%matches_plus_class & Ht3).
    apply matches_cat_iff in Ht3 as (y & c & -> & (cy & -> & Hy)%matches_class_iff
                                       & Hc%matches_plus_class).
    apply is_char_iff in Hx as ->; [|lia]. apply is_char_iff in Hy as ->; [|lia].
    by exists a, b, c.
  - intros (a & b & c & -> & Ha & Hb & Hc).
    exists a, ("@" +:+ b +:+ "." +:+ c). split; [done|].
    split; [by apply matches_plus_class|].
    apply matches_cat_iff. exists "@", (b +:+ "." +:+ c). split; [done|].
    split; [by constructor|].
    apply matches_cat_iff. exists b, ("." +:+ c). split; [done|].
    split; [by apply matches_plus_class|].
    apply matches_cat_iff. exists ".", c. split; [done|].
    split; [by constructor|by apply matches_plus_class].
Qed.

Lemma isValidEmail_regex s : isValidEmail s = true → regex_test emailRegex s = true.
Proof.
  unfold isValidEmail. by destruct (bool_decide (s = EmptyString)).
Qed.

(** X1 (Core.gs, [isValidEmail]).  A string is accepted as an address
    exactly when it reads [a@b.c], where each of [a], [b] and [c] is a
    non-empty run of characters that are neither white space nor [@]. *)
Theorem isValidEmail_shape s :
  isValidEmail s = true
  ↔ ∃ a b c, s = a +:+ "@" +:+ b +:+ "." +:+ c
             ∧ address_part a ∧ address_part b ∧ address_part c.
Proof.
  rewrite <- emailRegex_test. unfold isValidEmail.
  destruct (decide (s = EmptyString)) as [->|Hne].
  - rewrite bool_decide_eq_true_2 by done. split; [done|].
    intros (a & b & c & Hs & [Ha _] & _)%emailRegex_test. symmetry in Hs.
    apply append_eq_nil in Hs as [-> _]. done.
  - by rewrite bool_decide_eq_false_2.
Qed.

Lemma all_chars_app p (s t : string) :
  all_chars p (s +:+ t) = all_chars p s && all_chars p t.
Proof.
  induction s as [|c s IH]; [done|]. rewrite append_cons. simpl.
  by rewrite IH, andb_assoc.
Qed.

Lemma count_chars_app p (s t : string) :
  count_chars p (s +:+ t) = count_chars p s + count_chars p t.
Proof.
  induction s as [|c s IH]; [done|]. rewrite append_cons. simpl. rewrite IH. lia.
Qed.

Lemma all_chars_impl (p q : ascii → bool) s :
  (∀ c, p c = true → q c = true) → all_chars p s = true → all_chars q s = true.
Proof.
  intros Hpq. induction s as [|c s IH]; simpl; [done|].
  intros [Hp Hs]%andb_true_iff. by rewrite (Hpq c Hp), IH.
Qed.

Lemma count_chars_none (p q : ascii → bool) s :
  (∀ c, p c = true → q c = false) → all_chars p s = true → count_chars q s = 0.
Proof.
  intros Hpq. induction s as [|c s IH]; simpl; [done|].
  intros [Hp Hs]%andb_true_iff. by rewrite (Hpq c Hp), IH.
Qed.

Lemma trim_no_space s :
  all_chars (λ c, negb (is_space c)) s = true → trim s = s.
Proof.
  intros Hall. unfold trim.
  assert (Hstart : trim_start s = s).
  { destruct s as [|c s]; [done|]. simpl in *.
    apply andb_true_iff in Hall as [Hc _]. by destruct (is_space c). }
  rewrite Hstart. clear Hstart.
  induction s as [|c s IH]; [done|]. simpl in *.
  apply andb_true_iff in Hall as [Hc Hs]. rewrite (IH Hs).
  destruct s; [|done]. by destruct (is_space c).
Qed.

(** X2 (Core.gs, [isValidEmail]; Email.gs, the [trim] of the pieces).  An
    accepted address has no white space anywhere and exactly one [@], and
    trimming leaves it as it is. *)
Theorem isValidEmail_clean s :
  isValidEmail s = true →
  all_chars (λ c, negb (is_space c)) s = true
  ∧ count_chars (is_char 64) s = 1
  ∧ trim s = s.
Proof.
  intros (a & b & c & -> & [_ Ha] & [_ Hb] & [_ Hc])%isValidEmail_regex%emailRegex_test.
  assert (Hns : ∀ x, not_space_at x = true → negb (is_space x) = true).
  { intros x. unfold not_space_at. destruct (is_space x); [done|done]. }
  assert (Hna : ∀ x, not_space_at x = true → is_char 64 x = false).
  { intros x. unfold not_space_at. destruct (is_char 64 x); [|done].
    by rewrite orb_true_r. }
  assert (Hall : all_chars (λ c, negb (is_space c)) (a +:+ "@" +:+ b +:+ "." +:+ c) = true).
  { rewrite !all_chars_app.
    rewrite (all_chars_impl _ _ a Hns Ha), (all_chars_impl _ _ b Hns Hb),
      (all_chars_impl _ _ c Hns Hc). reflexivity. }
  split_and!; [done| |by apply trim_no_space].
  rewrite !count_chars_app.
  rewrite (count_chars_none _ _ a Hna Ha), (count_chars_none _ _ b Hna Hb),
    (count_chars_none _ _ c Hna Hc). reflexivity.
Qed.

Lemma isValidEmail_clean_witness :
  all_chars (λ c, negb (is_space c)) "a@x.com" = true
  ∧ count_chars (is_char 64) "a@x.com" = 1
  ∧ trim "a@x.com" = "a@x.com".
Proof. apply isValidEmail_clean. reflexivity. Defined.

(** ** The batch over the seller rows *)

Lemma send_each_mails H data subject html addresses :
  ∃ sent, send_each H data subject html addresses = (sent, Z.of_nat (length sent))
          ∧ mail_to <$> sent = filter (λ a, isValidEmail a = true) addresses
          ∧ Forall (λ m, isValidEmail (mail_to m) = true ∧ mail_subject m = subject
                         ∧ mail_name m = CONFIG.EMAIL_SENDER_NAME
                         ∧ mail_replyTo m = CONFIG.EMAIL_SENDER_ADDRESS) sent.
Proof.
  induction addresses as [|a rest (sent & IH & Hto & Hall)]; simpl.
  { exists []. by split_and!. }
  rewrite IH, filter_cons. destruct (isValidEmail a) eqn:E.
  - eexists (_ :: sent). split_and!.
    + f_equal. simpl length. lia.
    + rewrite decide_True by done. rewrite fmap_cons. cbn [mail_to]. by rewrite Hto.
    + constructor; [by split_and!|done].
  - exists sent. split_and!; [done| |done].
    by rewrite decide_False by (by intros ?).
Qed.

(** What one call of [sendNotificationEmail] does, whatever the row. *)
Lemma sendNotificationEmail_effect H uuid now content data subject w :
  ∃ sent,
    sendNotificationEmail H uuid now content data subject w
    = ({| tracking := Some (rows_or_header (tracking w)
                            ++ [new_record uuid now (sellerEmail data) (sellerId data)]);
          outbox := outbox w ++ sent |},
       bool_decide (sent ≠ []))
    ∧ Forall (λ m, isValidEmail (mail_to m) = true ∧ mail_subject m = subject
                   ∧ mail_name m = CONFIG.EMAIL_SENDER_NAME
                   ∧ mail_replyTo m = CONFIG.EMAIL_SENDER_ADDRESS) sent
    ∧ mail_to <$> sent
      = match sellerEmail data with CStr s => valid_addresses s | _ => [] end.
Proof.
  unfold sendNotificationEmail, generateTrackingPixel.
  assert (Hnone : ∃ sent : list mail,
    ({| tracking := recordTrackingId now uuid (sellerEmail data) (sellerId data) (tracking w);
        outbox := outbox w |}, false)
    = ({| tracking := Some (rows_or_header (tracking w)
                            ++ [new_record uuid now (sellerEmail data) (sellerId data)]);
          outbox := outbox w ++ sent |}, bool_decide (sent ≠ []))
    ∧ Forall (λ m, isValidEmail (mail_to m) = true ∧ mail_subject m = subject
                   ∧ mail_name m = CONFIG.EMAIL_SENDER_NAME
                   ∧ mail_replyTo m = CONFIG.EMAIL_SENDER_ADDRESS) sent
    ∧ mail_to <$> sent = []).
  { exists []. rewrite app_nil_r. split_and!; [|done|done]. f_equal. }
  destruct (sellerEmail data) as [s| | |]; [|exact Hnone..]. clear Hnone.
  destruct (send_each_mails H data subject
              (content +:+ pixel_markup
                 (CONFIG.WEB_APP_URL +:+ "?id=" +:+ uuid +:+ "&action=open"))
              (map trim (split_on "," s))) as (sent & Hsend & Hto & Hall).
  exists sent. rewrite Hsend. split_and!; [|done|done].
  f_equal. destruct sent; [done|]. simpl length.
  rewrite bool_decide_eq_true_2 by done. apply Z.ltb_lt. lia.
Qed.

Lemma append_records_app (a b : list row) (st : store) :
  append_records b (append_records a st) = append_records (a ++ b) st.
Proof.
  destruct a as [|x a]; [done|]. destruct b as [|y b].
  - by rewrite app_nil_r.
  - simpl. by rewrite <- app_assoc.
Qed.

(** What the loop body does on one row. *)
Lemma process_row_effect H B i row s w :
  ∃ s' w' sent,
    process_row H B i row s w = (s', w')
    ∧ tracking w'
      = append_records
          (if attempted row
           then [new_record (uuid_of B i) (time_of B i)
                   (sellerEmail (extractRowData row)) (sellerId (extractRowData row))]
           else [])
          (tracking w)
    ∧ outbox w' = outbox w ++ sent ∧ Forall batch_mail sent
    ∧ (attempted row = false → sent = [])
    ∧ processed s' = (processed s + 1)%Z
    ∧ (emailsSent s ≤ emailsSent s')%Z ∧ (errors s ≤ errors s')%Z
    ∧ (skippedNoEmail s ≤ skippedNoEmail s')%Z
    ∧ (emailsSent s' + errors s' + skippedNoEmail s'
       ≤ emailsSent s + errors s + skippedNoEmail s + 1)%Z
    ∧ (emailsSent s' - emailsSent s ≤ Z.of_nat (length sent))%Z.
Proof.
  assert (Hskip : ∀ s1 : run_stats,
    attempted row = false →
    processed s1 = (processed s + 1)%Z →
    (emailsSent s1 = emailsSent s)%Z → (errors s ≤ errors s1)%Z →
    (skippedNoEmail s ≤ skippedNoEmail s1)%Z →
    (errors s1 + skippedNoEmail s1 ≤ errors s + skippedNoEmail s + 1)%Z →
    ∃ s' w' sent, (s1, w) = (s', w')
      ∧ tracking w'
        = append_records
            (if attempted row
             then [new_record (uuid_of B i) (time_of B i)
                     (sellerEmail (extractRowData row)) (sellerId (extractRowData row))]
             else [])
            (tracking w)
      ∧ outbox w' = outbox w ++ sent ∧ Forall batch_mail sent
      ∧ (attempted row = false → sent = [])
      ∧ processed s' = (processed s + 1)%Z
      ∧ (emailsSent s ≤ emailsSent s')%Z ∧ (errors s ≤ errors s')%Z
      ∧ (skippedNoEmail s ≤ skippedNoEmail s')%Z
      ∧ (emailsSent s' + errors s' + skippedNoEmail s'
         ≤ emailsSent s + errors s + skippedNoEmail s + 1)%Z
      ∧ (emailsSent s' - emailsSent s ≤ Z.of_nat (length sent))%Z).
  { intros s1 Hatt ? ? ? ? ?. exists s1, w, []. rewrite Hatt, app_nil_r.
    split_and!; [done..|lia|done|done|lia|simpl; lia]. }
  assert (Hsend : ∀ tpl subject,
    attempted row = true →
    (subject = EMAIL_SUBJECT_PASSED ∨ subject = EMAIL_SUBJECT_FAILED) →
    ∃ s' w' sent,
      (let '(w', emailSent) :=
         sendNotificationEmail H (uuid_of B i) (time_of B i)
           (render B tpl (extractRowData row)) (extractRowData row) subject w in
       (count_send {| processed := processed s + 1; emailsSent := emailsSent s;
                      errors := errors s; skippedNoEmail := skippedNoEmail s |} emailSent,
        w')) = (s', w')
      ∧ tracking w'
        = append_records
            (if attempted row
             then [new_record (uuid_of B i) (time_of B i)
                     (sellerEmail (extractRowData row)) (sellerId (extractRowData row))]
             else [])
            (tracking w)
      ∧ outbox w' = outbox w ++ sent ∧ Forall batch_mail sent
      ∧ (attempted row = false → sent = [])
      ∧ processed s' = (processed s + 1)%Z
      ∧ (emailsSent s ≤ emailsSent s')%Z ∧ (errors s ≤ errors s')%Z
      ∧ (skippedNoEmail s ≤ skippedNoEmail s')%Z
      ∧ (emailsSent s' + errors s' + skippedNoEmail s'
         ≤ emailsSent s + errors s + skippedNoEmail s + 1)%Z
      ∧ (emailsSent s' - emailsSent s ≤ Z.of_nat (length sent))%Z).
  { intros tpl subject Hatt Hsubj.
    destruct (sendNotificationEmail_effect H (uuid_of B i) (time_of B i)
                (render B tpl (extractRowData row)) (extractRowData row) subject w)
      as (sent & -> & Hall & _).
    eexists _, _, sent. split; [reflexivity|]. rewrite Hatt. cbn [tracking outbox].
    split_and!; [done|done| |congruence|..].
    - eapply Forall_impl; [exact Hall|]. intros m (? & Hs & ? & ?).
      unfold batch_mail. rewrite Hs. by split_and!.
    - by destruct sent.
    - destruct sent; simpl; lia.
    - destruct sent; simpl; lia.
    - destruct sent; simpl; lia.
    - destruct sent; simpl; lia.
    - destruct sent; simpl; lia. }
  unfold process_row.
  destruct (length row <=? COLUMNS.REPORT)%nat eqn:Hlen.
  { apply Hskip; [unfold attempted; by rewrite Hlen|simpl; lia..]. }
  destruct (truthy (sellerEmail (extractRowData row))) eqn:Hem; cbn [negb].
  2:{ apply Hskip; [unfold attempted; by rewrite Hlen, Hem|simpl; lia..]. }
  destruct (truthy (result (extractRowData row))) eqn:Hres; cbn [negb].
  2:{ apply Hskip; [|simpl; lia..]. unfold attempted. rewrite Hlen, Hem. cbn [negb andb].
      destruct (result (extractRowData row)) as [res| | |]; [|done..].
      cbn [truthy] in Hres. apply negb_false_iff, bool_decide_eq_true in Hres. by subst res. }
  destruct (result (extractRowData row)) as [res| | |] eqn:Hr.
  2-4: apply Hskip; [unfold attempted; by rewrite Hlen, Hem, Hr|simpl; lia..].
  destruct (bool_decide (toLowerCase res = "passed")) eqn:Hp.
  { apply Hsend; [unfold attempted; by rewrite Hlen, Hem, Hr, Hp|by left]. }
  destruct (bool_decide (toLowerCase res = "failed")) eqn:Hf.
  { apply Hsend; [unfold attempted; by rewrite Hlen, Hem, Hr, Hp, Hf|by right]. }
  apply Hskip; [unfold attempted; by rewrite Hlen, Hem, Hr, Hp, Hf|simpl; lia..].
Qed.

(** What the loop does from index [i] on. *)
Lemma process_rows_effect H B rows : ∀ i s w,
  ∃ s' w' sent,
    process_rows H B i rows s w = (s', w')
    ∧ tracking w' = append_records (issued B i rows) (tracking w)
    ∧ outbox w' = outbox w ++ sent ∧ Forall batch_mail sent
    ∧ processed s' = (processed s + Z.of_nat (length rows))%Z
    ∧ (emailsSent s ≤ emailsSent s')%Z ∧ (errors s ≤ errors s')%Z
    ∧ (skippedNoEmail s ≤ skippedNoEmail s')%Z
    ∧ (emailsSent s' + errors s' + skippedNoEmail s'
       ≤ emailsSent s + errors s + skippedNoEmail s + Z.of_nat (length rows))%Z
    ∧ (emailsSent s' - emailsSent s ≤ Z.of_nat (length sent))%Z.
Proof.
  induction rows as [|row rows IH]; intros i s w.
  { exists s, w, []. rewrite app_nil_r. simpl. split_and!; (done || lia). }
  destruct (process_row_effect H B i row s w)
    as (s1 & w1 & sent1 & Hrow & Ht1 & Ho1 & Hm1 & _ & Hp1 & ? & ? & ? & ? & ?).
  destruct (IH (S i) s1 w1)
    as (s2 & w2 & sent2 & Hrows & Ht2 & Ho2 & Hm2 & Hp2 & ? & ? & ? & ? & ?).
  exists s2, w2, (sent1 ++ sent2). cbn [process_rows issued]. rewrite Hrow, Hrows.
  split_and!.
  - done.
  - by rewrite Ht2, Ht1, append_records_app.
  - by rewrite Ho2, Ho1, app_assoc.
  - by apply Forall_app.
  - rewrite Hp2, Hp1. cbn [length]. lia.
  - lia.
  - lia.
  - lia.
  - cbn [length]. lia.
  - rewrite length_app. lia.
Qed.

Lemma length_issued B rows : ∀ i, length (issued B i rows) = length (filter (λ r, attempted r = true) rows).
Proof.
  induction rows as [|row rows IH]; intros i; [done|].
  cbn [issued]. rewrite length_app, IH, filter_cons.
  destruct (attempted row); [by rewrite decide_True|by rewrite decide_False].
Qed.

(** X3 (Main.gs, [processData]).  When the templates load, [processed]
    is the number of rows after the header, whatever they hold; no counter
    is negative; and a row is counted at most once among [emailsSent],
    [errors] and [skippedNoEmail].  When a template does not load, the
    run counts one error and nothing else, and sends and writes nothing. *)
Theorem processData_counts H B (data : list (list cell)) (w : world) :
  (templates_load B = true →
     processed (processData H B data w).1 = Z.of_nat (length data - 1)
     ∧ (0 ≤ emailsSent (processData H B data w).1)%Z
     ∧ (0 ≤ errors (processData H B data w).1)%Z
     ∧ (0 ≤ skippedNoEmail (processData H B data w).1)%Z
     ∧ (emailsSent (processData H B data w).1 + errors (processData H B data w).1
        + skippedNoEmail (processData H B data w).1
        ≤ processed (processData H B data w).1)%Z)
  ∧ (templates_load B = false →
     processData H B data w
     = ({| processed := 0; emailsSent := 0; errors := 1; skippedNoEmail := 0 |}, w)).
Proof.
  unfold processData. split; intros ->; [|done].
  destruct (process_rows_effect H B (drop HEADER_ROW_COUNT data) HEADER_ROW_COUNT
              {| processed := 0; emailsSent := 0; errors := 0; skippedNoEmail := 0 |} w)
    as (s' & w' & sent & -> & _ & _ & _ & Hp & ? & ? & ? & ? & _).
  cbn [fst processed emailsSent errors skippedNoEmail] in *.
  rewrite length_drop in *. unfold HEADER_ROW_COUNT in *. split_and!; lia.
Qed.

(** X4 (Main.gs, [processData]; Email.gs, [recordTrackingId]).  A run
    appends to the tracking sheet one row for each seller row that goes as
    far as sending, in the order of the seller sheet, after the rows that
    were there, which it leaves as they are; with no such seller row, or
    when a template does not load, the tracking sheet is not touched (nor
    created). *)
Theorem processData_tracking H B (data : list (list cell)) (w : world) :
  tracking (processData H B data w).2
  = (if templates_load B
     then append_records (issued B 1 (drop 1 data)) (tracking w)
     else tracking w)
  ∧ length (issued B 1 (drop 1 data))
    = length (filter (λ r, attempted r = true) (drop 1 data)).
Proof.
  split; [|apply length_issued].
  unfold processData. destruct (templates_load B); [|done].
  destruct (process_rows_effect H B (drop HEADER_ROW_COUNT data) HEADER_ROW_COUNT
              {| processed := 0; emailsSent := 0; errors := 0; skippedNoEmail := 0 |} w)
    as (s' & w' & sent & -> & Ht & _).
  exact Ht.
Qed.

(** X5 (Main.gs, [processData]; Email.gs, [sendNotificationEmail]).  A run
    only adds to the mails sent.  Each mail it sends goes to a string that
    [isValidEmail] accepts, under one of the two subjects, with the sender
    name and reply address of [CONFIG]; and every row counted in
    [emailsSent] had at least one mail sent. *)
Theorem processData_mails H B (data : list (list cell)) (w : world) :
  ∃ sent,
    outbox (processData H B data w).2 = outbox w ++ sent
    ∧ Forall batch_mail sent
    ∧ (emailsSent (processData H B data w).1 ≤ Z.of_nat (length sent))%Z.
Proof.
  unfold processData. destruct (templates_load B).
  - destruct (process_rows_effect H B (drop HEADER_ROW_COUNT data) HEADER_ROW_COUNT
                {| processed := 0; emailsSent := 0; errors := 0; skippedNoEmail := 0 |} w)
      as (s' & w' & sent & -> & _ & Ho & Hm & _ & _ & _ & _ & _ & Hsent).
    exists sent. cbn [fst snd emailsSent] in *. split_and!; [done|done|lia].
  - exists []. rewrite app_nil_r. by split_and!.
Qed.

Lemma field_or_blank_string row k e :
  row !! k = Some (CStr e) → e ≠ EmptyString → field_or_blank row k = CStr e.
Proof.
  intros Hk He. unfold field_or_blank, js_or. rewrite Hk. simpl.
  by rewrite bool_decide_eq_false_2.
Qed.

(** X6 (Main.gs, [processData]; Email.gs, [sendNotificationEmail]).  A
    seller row whose email column holds text with no valid address in it,
    and whose result reads [passed] or [failed], still has a token drawn
    and its tracking row written; no mail is sent, and the row is counted
    in [errors]. *)
Theorem process_row_no_valid_address H B i (row : list cell) s w e res :
  COLUMNS.REPORT < length row →
  row !! COLUMNS.EMAIL = Some (CStr e) → e ≠ EmptyString → valid_addresses e = [] →
  row !! COLUMNS.RESULT = Some (CStr res) →
  toLowerCase res = "passed" ∨ toLowerCase res = "failed" →
  process_row H B i row s w
  = ({| processed := processed s + 1; emailsSent := emailsSent s;
        errors := errors s + 1; skippedNoEmail := skippedNoEmail s |},
     {| tracking := Some (rows_or_header (tracking w)
                          ++ [new_record (uuid_of B i) (time_of B i) (CStr e)
                                (sellerId (extractRowData row))]);
        outbox := outbox w |}).
Proof.
  intros Hlen He Hne Hvalid Hres Hlow.
  assert (Hr : res ≠ EmptyString) by (by destruct Hlow as [Hl|Hl]; intros ->).
  assert (Hem : sellerEmail (extractRowData row) = CStr e)
    by (by apply field_or_blank_string).
  assert (Hrs : result (extractRowData row) = CStr res)
    by (by apply field_or_blank_string).
  unfold process_row.
  rewrite (proj2 (Nat.leb_gt _ _) Hlen), Hem, Hrs. cbn [truthy].
  rewrite !bool_decide_eq_false_2 by done. cbn [negb].
  assert (Hsend : ∀ tpl subject,
    sendNotificationEmail H (uuid_of B i) (time_of B i)
      (render B tpl (extractRowData row)) (extractRowData row) subject w
    = ({| tracking := Some (rows_or_header (tracking w)
                            ++ [new_record (uuid_of B i) (time_of B i) (CStr e)
                                  (sellerId (extractRowData row))]);
          outbox := outbox w |}, false)).
  { intros tpl subject.
    destruct (sendNotificationEmail_effect H (uuid_of B i) (time_of B i)
                (render B tpl (extractRowData row)) (extractRowData row) subject w)
      as (sent & -> & _ & Hto).
    rewrite Hem, Hvalid in Hto. apply fmap_nil_inv in Hto as ->.
    by rewrite app_nil_r, Hem. }
  destruct Hlow as [Hl|Hl]; rewrite Hl.
  - rewrite bool_decide_eq_true_2 by done. by rewrite Hsend.
  - rewrite bool_decide_eq_false_2 by done. rewrite bool_decide_eq_true_2 by done.
    by rewrite Hsend.
Qed.

Lemma process_row_no_valid_address_witness :
  process_row host0 batch0 1 seller_row0 no_stats world0
  = ({| processed := 1; emailsSent := 0; errors := 1; skippedNoEmail := 0 |},
     {| tracking := Some [header; new_record "uuid-1" 1 (CStr "not an address") (CStr "S1")];
        outbox := [] |}).
Proof.
  apply (process_row_no_valid_address host0 batch0 1 seller_row0 no_stats world0
           "not an address" "Passed");
    [compute; lia|reflexivity|discriminate|reflexivity|reflexivity|by left].
Defined.

(** ** Who a run mails *)

Lemma process_row_recipients H B i row s w :
  ∃ sent, outbox (process_row H B i row s w).2 = outbox w ++ sent
          ∧ mail_to <$> sent = recipients row.
Proof.
  assert (Hskip : ∀ s1 : run_stats, attempted row = false →
            ∃ sent, outbox (s1, w).2 = outbox w ++ sent
                    ∧ mail_to <$> sent = recipients row).
  { intros s1 Hatt. exists []. unfold recipients. rewrite Hatt.
    by rewrite app_nil_r. }
  assert (Hsend : ∀ tpl subject s1, attempted row = true →
            ∃ sent,
              outbox (let '(w', emailSent) :=
                        sendNotificationEmail H (uuid_of B i) (time_of B i)
                          (render B tpl (extractRowData row)) (extractRowData row)
                          subject w in
                      (count_send s1 emailSent, w')).2 = outbox w ++ sent
              ∧ mail_to <$> sent = recipients row).
  { intros tpl subject s1 Hatt.
    destruct (sendNotificationEmail_effect H (uuid_of B i) (time_of B i)
                (render B tpl (extractRowData row)) (extractRowData row) subject w)
      as (sent & -> & _ & Hto).
    exists sent. unfold recipients. rewrite Hatt. by split. }
  unfold process_row.
  destruct (length row <=? COLUMNS.REPORT)%nat eqn:Hlen.
  { apply Hskip. unfold attempted. by rewrite Hlen. }
  destruct (truthy (sellerEmail (extractRowData row))) eqn:Hem; cbn [negb].
  2:{ apply Hskip. unfold attempted. by rewrite Hlen, Hem. }
  destruct (truthy (result (extractRowData row))) eqn:Hres; cbn [negb].
  2:{ apply Hskip. unfold attempted. rewrite Hlen, Hem. cbn [negb andb].
      destruct (result (extractRowData row)) as [res| | |]; [|done..].
      cbn [truthy] in Hres. apply negb_false_iff, bool_decide_eq_true in Hres.
      by subst res. }
  destruct (result (extractRowData row)) as [res| | |] eqn:Hr.
  2-4: apply Hskip; unfold attempted; by rewrite Hlen, Hem, Hr.
  destruct (bool_decide (toLowerCase res = "passed")) eqn:Hp.
  { apply Hsend. unfold attempted. by rewrite Hlen, Hem, Hr, Hp. }
  destruct (bool_decide (toLowerCase res = "failed")) eqn:Hf.
  { apply Hsend. unfold attempted. by rewrite Hlen, Hem, Hr, Hp, Hf. }
  apply Hskip. unfold attempted. by rewrite Hlen, Hem, Hr, Hp, Hf.
Qed.

Lemma process_rows_recipients H B rows : ∀ i s w,
  ∃ sent, outbox (process_rows H B i rows s w).2 = outbox w ++ sent
          ∧ mail_to <$> sent = concat (recipients <$> rows).
Proof.
  induction rows as [|row rows IH]; intros i s w.
  { exists []. by rewrite app_nil_r. }
  cbn [process_rows].
  destruct (process_row_recipients H B i row s w) as (sent1 & Ho1 & Hto1).
  destruct (process_row H B i row s w) as [s1 w1]. cbn [snd] in Ho1.
  destruct (IH (S i) s1 w1) as (sent2 & Ho2 & Hto2).
  exists (sent1 ++ sent2). rewrite Ho2, Ho1, app_assoc. split; [done|].
  by rewrite fmap_app, Hto1, Hto2, fmap_cons.
Qed.

(** The seller rows that [main] goes through. *)
Lemma main_rows H B (mystery : option (list (list cell))) (w : world) :
  (length (default [] mystery) ≤ 1 ∧ main H B mystery w = (None, w))
  ∨ (∃ rows, mystery = Some rows ∧ 1 < length rows
             ∧ main H B mystery w
               = (Some (processData H B rows w).1, (processData H B rows w).2)).
Proof.
  destruct mystery as [[|r [|r' rows]]|].
  - left. by split; [simpl; lia|].
  - left. by split; [simpl; lia|].
  - right. exists (r :: r' :: rows). split_and!; [done|simpl; lia|].
    unfold main. cbn [getSheetData].
    change (length (r :: r' :: rows) <=? HEADER_ROW_COUNT)%nat with false. cbv iota.
    by destruct (processData H B (r :: r' :: rows) w).
  - left. by split; [simpl; lia|].
Qed.

Lemma main_outbox H B (mystery : option (list (list cell))) (w : world) :
  ∃ sent,
    outbox (main H B mystery w).2 = outbox w ++ sent
    ∧ mail_to <$> sent
      = (if templates_load B
         then concat (recipients <$> drop 1 (default [] mystery))
         else []).
Proof.
  destruct (main_rows H B mystery w) as [[Hlen ->]|(rows & -> & Hlen & ->)]; cbn [snd].
  - exists []. rewrite app_nil_r. split; [done|].
    destruct (default [] mystery) as [|r [|r' rows]]; [|by destruct (templates_load B)|].
    + by destruct (templates_load B).
    + simpl in Hlen. lia.
  - cbn [default]. unfold processData. destruct (templates_load B).
    + apply (process_rows_recipients H B (drop HEADER_ROW_COUNT rows)).
    + exists []. by rewrite app_nil_r.
Qed.

(** X7 (Main.gs, [main] and [processData]; Core.gs, [getSheetData];
    Email.gs, [sendNotificationEmail]).  The mails of a run of [main] go,
    in the order of the seller sheet, to the valid addresses of each row
    after the header that goes as far as sending, and to no one else; there
    is none when the seller sheet is absent, has no content or a single
    row, or when a template does not load.  [main] returns counters exactly
    when the sheet has two rows or more.  And nothing records that a row
    has had its mail: a second run on the same sheet mails the same
    addresses again. *)
Theorem main_recipients H B (mystery : option (list (list cell))) (w : world) :
  ∃ sent,
    outbox (main H B mystery w).2 = outbox w ++ sent
    ∧ mail_to <$> sent
      = (if templates_load B
         then concat (recipients <$> drop 1 (default [] mystery))
         else [])
    ∧ ((main H B mystery w).1 = None ↔ length (default [] mystery) ≤ 1)
    ∧ ∀ B', templates_load B' = templates_load B →
        ∃ sent', outbox (main H B' mystery (main H B mystery w).2).2
                 = outbox w ++ sent ++ sent'
                 ∧ mail_to <$> sent' = mail_to <$> sent.
Proof.
  destruct (main_outbox H B mystery w) as (sent & Ho & Hto).
  exists sent. split_and!; [done|done| |].
  - destruct (main_rows H B mystery w) as [[Hlen ->]|(rows & -> & Hlen & ->)].
    + done.
    + cbn [fst]. unfold default. cbn [from_option id]. split; [done|lia].
  - intros B' Hload.
    destruct (main_outbox H B' mystery (main H B mystery w).2) as (sent' & Ho' & Hto').
    exists sent'. rewrite Ho', Ho, app_assoc. split; [done|].
    by rewrite Hto', Hto, Hload.
Qed.

Lemma main_recipients_witness :
  ∃ sent, outbox (main host0 batch0 (Some seller_data1) world0).2 = sent
          ∧ mail_to <$> sent = ["a@x.com"; "b@x.com"; "d@x.com"].
Proof.
  destruct (main_recipients host0 batch0 (Some seller_data1) world0)
    as (sent & Ho & Hto & _).
  exists sent. split; [exact Ho|]. rewrite Hto. reflexivity.
Defined.

(** ** The tracking sheet stays well formed *)

Lemma new_record_ok uuid now email sellerId :
  opened_ok (new_record uuid now email sellerId)
  ∧ views_ok (new_record uuid now email sellerId).
Proof. split; [by left|]. left. exists 0%Z. split; [done|lia]. Qed.

Lemma issued_ok B rows : ∀ i, Forall (λ r, opened_ok r ∧ views_ok r) (issued B i rows).
Proof.
  induction rows as [|row rows IH]; intros i; [constructor|].
  cbn [issued]. apply Forall_app. split; [|apply IH].
  destruct (attempted row); [|constructor].
  constructor; [apply new_record_ok|constructor].
Qed.

Lemma append_records_ok news st :
  sheet_ok st → Forall (λ r, opened_ok r ∧ views_ok r) news →
  sheet_ok (append_records news st).
Proof.
  intros Hst Hnews. destruct news as [|n news]; [done|].
  intros sh r [= <-] (j & Hj & Hl)%elem_of_data_rows.
  destruct (decide (j < length (rows_or_header st))) as [Hlt|Hge].
  - rewrite lookup_app_l in Hl by done. destruct st as [sh|].
    + apply (Hst sh r eq_refl), elem_of_data_rows. eauto.
    + simpl in Hlt. lia.
  - rewrite lookup_app_r in Hl by lia.
    eapply (proj1 (Forall_forall _ _) Hnews). by eapply list_elem_of_lookup_2.
Qed.

(** X8 (Email.gs, [recordTrackingId]; UI.gs, [recordEmailOpen]; Main.gs,
    [processData]).  Every entry point that writes the tracking sheet keeps
    it well formed: each data row has [Yes] or [No] in [Opened] and a
    count, 0 or more, or a blank in [Views].  An absent sheet is well
    formed, so this holds of every sheet that the script has built. *)
Theorem script_keeps_sheet_ok H B (w : world) :
  sheet_ok (tracking w) →
  (∀ uuid now email sellerId,
     sheet_ok (generateTrackingPixel uuid now email sellerId (tracking w)).1)
  ∧ (∀ uuid now content data subject,
       sheet_ok (tracking (sendNotificationEmail H uuid now content data subject w).1))
  ∧ (∀ data, sheet_ok (tracking (processData H B data w).2))
  ∧ (∀ mystery, sheet_ok (tracking (main H B mystery w).2))
  ∧ (∀ now e, sheet_ok (doGet H now e (tracking w)).1).
Proof.
  intros Hok.
  assert (Hdata : ∀ data, sheet_ok (tracking (processData H B data w).2)).
  { intros data. unfold processData. destruct (templates_load B); [|done].
    destruct (process_rows_effect H B (drop HEADER_ROW_COUNT data) HEADER_ROW_COUNT
                {| processed := 0; emailsSent := 0; errors := 0; skippedNoEmail := 0 |} w)
      as (s' & w' & sent & -> & Ht & _).
    cbn [snd]. rewrite Ht. apply append_records_ok; [done|apply issued_ok]. }
  split_and!.
  - intros. by apply recordTrackingId_ok.
  - intros uuid now content data subject.
    destruct (sendNotificationEmail_effect H uuid now content data subject w)
      as (sent & -> & _).
    apply (append_records_ok [new_record uuid now (sellerEmail data) (sellerId data)]);
      [done|]. constructor; [apply new_record_ok|constructor].
  - done.
  - intros mystery. unfold main. destruct (getSheetData mystery) as [data|]; [|done].
    destruct (length data <=? HEADER_ROW_COUNT)%nat; [done|].
    specialize (Hdata data). by destruct (processData H B data w).
  - intros. by apply doGet_ok.
Qed.

Lemma script_keeps_sheet_ok_witness :
  sheet_ok (tracking (processData host0 batch0 [[]; seller_row0] world0).2)
  ∧ sheet_ok (doGet host0 5 (open_request "uuid-1") (tracking world0)).1.
Proof.
  assert (Hok : sheet_ok (tracking world0)).
  { intros sh r [= <-] Hr. by apply elem_of_nil in Hr. }
  destruct (script_keeps_sheet_ok host0 batch0 world0 Hok) as (_ & _ & Hp & _ & Hd).
  split; [apply Hp|apply Hd].
Defined.

(** ** The numbers of the statistics *)

Lemma count_row_steps H w c r :
  ∃ o l lo : bool,
    c_openedEmails (count_row H w c r) = (c_openedEmails c + Z.b2z o)%Z
    ∧ c_lastWeekEmails (count_row H w c r) = (c_lastWeekEmails c + Z.b2z l)%Z
    ∧ c_lastWeekOpened (count_row H w c r) = (c_lastWeekOpened c + Z.b2z lo)%Z
    ∧ (Z.b2z lo ≤ Z.b2z o)%Z ∧ (Z.b2z lo ≤ Z.b2z l)%Z.
Proof.
  unfold count_row.
  destruct (strict_eq_string (Opened r) "Yes");
    (destruct (js_Date H (SendDate r)) as [t|]; [destruct (w <? t)%Z|]);
    cbn [c_openedEmails c_lastWeekEmails c_lastWeekOpened].
  - exists true, true, true. simpl. lia.
  - exists true, false, false. simpl. lia.
  - exists true, false, false. simpl. lia.
  - exists false, true, false. simpl. lia.
  - exists false, false, false. simpl. lia.
  - exists false, false, false. simpl. lia.
Qed.

Lemma count_rows_bounds H w rs : ∀ c,
  (c_openedEmails c ≤ c_openedEmails (foldl (count_row H w) c rs)
   ≤ c_openedEmails c + Z.of_nat (length rs))%Z
  ∧ (c_lastWeekEmails c ≤ c_lastWeekEmails (foldl (count_row H w) c rs)
     ≤ c_lastWeekEmails c + Z.of_nat (length rs))%Z
  ∧ (c_lastWeekOpened c ≤ c_lastWeekOpened (foldl (count_row H w) c rs))%Z
  ∧ (c_lastWeekOpened (foldl (count_row H w) c rs) - c_lastWeekOpened c
     ≤ c_lastWeekEmails (foldl (count_row H w) c rs) - c_lastWeekEmails c)%Z
  ∧ (c_lastWeekOpened (foldl (count_row H w) c rs) - c_lastWeekOpened c
     ≤ c_openedEmails (foldl (count_row H w) c rs) - c_openedEmails c)%Z.
Proof.
  induction rs as [|r rs IH]; intros c; cbn [foldl length]; [lia|].
  destruct (count_row_steps H w c r) as (o & l & lo & Ho & Hl & Hlo & ? & ?).
  specialize (IH (count_row H w c r)). rewrite Ho, Hl, Hlo in IH.
  destruct o, l, lo; simpl in *; lia.
Qed.

(** X9 (Email.gs, [getEmailStats]).  Whenever the statistics are
    computed, the counts are ordered as they should: the opened emails are
    among the emails, the emails of the last week are among the emails, and
    the opened emails of the last week are among both the opened emails and
    the emails of the last week; none is negative. *)
Theorem getEmailStats_bounds H now (st : store) s :
  getEmailStats H now st = StatsOk s →
  (0 ≤ openedEmails s ≤ totalEmails s)%Z
  ∧ (0 ≤ lastWeekOpened s ≤ lastWeekEmails s)%Z
  ∧ (lastWeekEmails s ≤ totalEmails s)%Z
  ∧ (lastWeekOpened s ≤ openedEmails s)%Z.
Proof.
  destruct st as [[|hd [|r rs]]|]; [done|done| |done].
  unfold getEmailStats.
  change (getValues (hd :: r :: rs)) with (hd :: r :: rs).
  change (drop 1 (hd :: r :: rs)) with (r :: rs).
  change (length (hd :: r :: rs) <=? 1)%nat with false. cbv iota.
  intros [= <-]. cbn [totalEmails openedEmails lastWeekEmails lastWeekOpened].
  pose proof (count_rows_bounds H (week_before H now) (r :: rs)
                {| c_openedEmails := 0; c_totalViews := Num 0;
                   c_lastWeekEmails := 0; c_lastWeekOpened := 0 |}) as Hb.
  cbn [c_openedEmails c_lastWeekEmails c_lastWeekOpened] in Hb.
  cbn [length foldl] in *. lia.
Qed.

Lemma getEmailStats_bounds_witness :
  ∃ s, getEmailStats host0 2000 (Some sheet10) = StatsOk s
       ∧ (0 ≤ openedEmails s ≤ totalEmails s)%Z
       ∧ (0 ≤ lastWeekOpened s ≤ lastWeekEmails s)%Z
       ∧ (lastWeekEmails s ≤ totalEmails s)%Z
       ∧ (lastWeekOpened s ≤ openedEmails s)%Z.
Proof.
  eexists. split; [reflexivity|].
  exact (getEmailStats_bounds host0 2000 (Some sheet10) _ eq_refl).
Defined.

(** Replacing one row changes the two sums by what the row counted for. *)
Lemma opened_rows_insert (rows : list row) : ∀ k r r',
  rows !! k = Some r →
  (Z.of_nat (length (opened_rows (<[k := r']> rows))) + opened_counted r
   = Z.of_nat (length (opened_rows rows)) + opened_counted r')%Z
  ∧ (sum_max_views (<[k := r']> rows) + views_counted r
     = sum_max_views rows + views_counted r')%Z.
Proof.
  unfold sum_max_views, opened_rows, opened_counted, views_counted, viewCount.
  induction rows as [|x rows IH]; intros k r r' Hk; [done|].
  destruct k as [|k]; simpl in Hk.
  - injection Hk as ->. cbn [insert list_insert]. rewrite !filter_cons.
    destruct (decide (Opened r = CStr "Yes")), (decide (Opened r' = CStr "Yes"));
      rewrite ?fmap_cons; cbn [length sum_max]; lia.
  - cbn [insert list_insert]. rewrite !filter_cons.
    destruct (IH k r r' Hk) as [IH1 IH2].
    destruct (decide (Opened x = CStr "Yes")); rewrite ?fmap_cons; cbn [length sum_max];
      unfold insert in *; lia.
Qed.

(** X10 (UI.gs, [doGet]; Email.gs, [getEmailStats]).  Hit N times, N at
    least 1, the URL of a token whose row is not opened and has no view, on
    a sheet whose opened rows hold counts.  The statistics afterwards have
    the same [totalEmails], one more in [openedEmails], and a [totalViews]
    larger by the larger of N - 1 and 1: the first and the second hit
    together count for one view.  The total afterwards is within
    [MAX_SAFE_INTEGER], so that the count of the row and both sums are
    what the doubles of the script give. *)
Theorem hits_then_stats H now1 now2 tok (sh : list row) i r t1 times :
  first_hit tok sh i r → tok ≠ EmptyString →
  Opened r = CStr "No" → Views r = CNum 0 →
  (∀ r', r' ∈ drop 1 sh → Opened r' = CStr "Yes" → views_ok r') →
  (sum_max_views (drop 1 sh) + Z.max (Z.of_nat (length times)) 1 ≤ MAX_SAFE_INTEGER)%Z →
  ∃ s s', getEmailStats H now1 (Some sh) = StatsOk s
          ∧ getEmailStats H now2 (hits H tok (t1 :: times) (Some sh)) = StatsOk s'
          ∧ totalEmails s' = totalEmails s
          ∧ openedEmails s' = (openedEmails s + 1)%Z
          ∧ totalViews s = Num (sum_max_views (drop 1 sh))
          ∧ totalViews s'
            = Num (sum_max_views (drop 1 sh) + Z.max (Z.of_nat (length times)) 1).
Proof.
  intros Hf Htok Ho Hv Hok _.
  rewrite hits_serial by done. rewrite (serial_fresh H tok sh i r t1 times Hf Ho Hv).
  set (r2 := Row (TrackingID r) (Email r) (SellerID r) (SendDate r) (CDate t1)
                 (CStr "Yes") (CNum (Z.of_nat (length (t1 :: times)) - 1))).
  destruct Hf as (Hi & Hl & _).
  destruct sh as [|hd rows]; [done|]. destruct i as [|k]; [lia|].
  cbn [lookup list_lookup] in Hl. change (rows !! k = Some r) in Hl.
  change (<[S k := r2]> (hd :: rows)) with (hd :: <[k := r2]> rows).
  change (drop 1 (hd :: rows)) with rows in *.
  destruct (opened_rows_insert rows k r r2 Hl) as [Hcount Hsum].
  assert (Hr : opened_counted r = 0%Z ∧ views_counted r = 0%Z).
  { unfold opened_counted, views_counted. rewrite Ho. by rewrite !decide_False. }
  assert (Hr2 : opened_counted r2 = 1%Z
                ∧ views_counted r2 = Z.max (Z.of_nat (length times)) 1).
  { unfold opened_counted, views_counted, viewCount. cbn [Opened Views r2].
    rewrite !decide_True by done. split; [done|]. cbn [length]. lia. }
  destruct Hr as [Hr Hr'], Hr2 as [Hr2 Hr2']. rewrite Hr, Hr2 in Hcount.
  rewrite Hr', Hr2' in Hsum.
  assert (Hlen : length (<[k := r2]> rows) = length rows) by apply length_insert.
  assert (Hok2 : ∀ r', r' ∈ <[k := r2]> rows → Opened r' = CStr "Yes" → views_ok r').
  { intros r' [j Hj]%list_elem_of_lookup_1 Hyes.
    destruct (decide (k = j)) as [<-|Hne].
    - rewrite list_lookup_insert_eq in Hj by (by eapply lookup_lt_Some).
      injection Hj as <-. left. eexists. split; [reflexivity|]. cbn [length]. lia.
    - rewrite list_lookup_insert_ne in Hj by done.
      apply Hok; [|done]. by eapply list_elem_of_lookup_2. }
  destruct rows as [|x xs]; [done|].
  destruct (<[k := r2]> (x :: xs)) as [|y ys] eqn:Hins; [done|].
  destruct (getEmailStats_data H now1 hd x xs) as (s & Hs & Ht & Hop & _ & _ & Hviews).
  destruct (getEmailStats_data H now2 hd y ys) as (s' & Hs' & Ht' & Hop' & _ & _ & Hviews').
  exists s, s'. split_and!; [done|done| | | |].
  - rewrite Ht, Ht'. by rewrite Hlen.
  - rewrite Hop, Hop'. lia.
  - by apply Hviews.
  - rewrite (Hviews' Hok2). f_equal. lia.
Qed.

Lemma hits_then_stats_witness :
  ∃ s s', getEmailStats host0 2000 (Some sheet0) = StatsOk s
          ∧ getEmailStats host0 2000 (hits host0 "tok-1" [10; 20]%Z (Some sheet0)) = StatsOk s'
          ∧ totalEmails s' = totalEmails s
          ∧ openedEmails s' = (openedEmails s + 1)%Z
          ∧ totalViews s = Num 2
          ∧ totalViews s' = Num 3.
Proof.
  destruct (hits_then_stats host0 2000 2000 "tok-1" sheet0 1 (record0 "tok-1" "No" 0)
              10%Z [20%Z] first_hit_sheet0 ltac:(discriminate) eq_refl eq_refl)
    as (s & s' & Hs & Hs' & Ht & Ho & Hv & Hv').
  - intros r' Hr' _. simpl in Hr'.
    apply elem_of_cons in Hr' as [->|Hr']; [left; exists 0%Z; split; [reflexivity|lia]|].
    apply elem_of_cons in Hr' as [->|Hr']; [left; exists 2%Z; split; [reflexivity|lia]|].
    by apply elem_of_nil in Hr'.
  - vm_compute. discriminate.
  - exists s, s'. split_and!; [exact Hs|exact Hs'|exact Ht|exact Ho| |].
    + rewrite Hv. reflexivity.
    + rewrite Hv'. reflexivity.
Defined.

(** ** From issuing a token to its first open *)

(** X11 (Email.gs, [generateTrackingPixel]; UI.gs, [doGet]).  Issue a
    token that no data row has, into a sheet that has its header (or into
    none), and then request the URL of the markup returned: the row just
    written, and no other, is marked opened at the time of the request,
    with no view. *)
Theorem issue_then_open H uuid now t (email sellerId : cell) (st : store) :
  uuid ≠ EmptyString →
  (∀ sh, st = Some sh → sh ≠ [] ∧ no_hit uuid sh) →
  doGet H t (open_request uuid) (generateTrackingPixel uuid now email sellerId st).1
  = (Some (rows_or_header st
           ++ [Row (CStr uuid) email sellerId (CDate now) (CDate t) (CStr "Yes") (CNum 0)]),
     gif).
Proof.
  intros Hne Hst.
  destruct (issued_token_first_hit uuid now email sellerId st Hst) as (sh' & Hsh' & Hf).
  rewrite doGet_open_request by done. rewrite Hsh'.
  rewrite (recordEmailOpen_hit H t uuid sh' _ _ Hf).
  assert (Heq : sh' = rows_or_header st ++ [new_record uuid now email sellerId]).
  { by injection Hsh' as <-. }
  rewrite Heq. rewrite length_app. cbn [length].
  replace (length (rows_or_header st) + 1 - 1) with (length (rows_or_header st) + 0) by lia.
  by rewrite insert_app_r.
Qed.

Lemma issue_then_open_witness :
  doGet host0 9 (open_request "uuid-7")
    (generateTrackingPixel "uuid-7" 3 (CStr "a@x.com") (CStr "S1") None).1
  = (Some [header;
           Row (CStr "uuid-7") (CStr "a@x.com") (CStr "S1") (CDate 3) (CDate 9)
               (CStr "Yes") (CNum 0)],
     gif).
Proof.
  apply (issue_then_open host0 "uuid-7" 3 9 (CStr "a@x.com") (CStr "S1") None);
    [discriminate|discriminate].
Defined.

(** X12 (Email.gs, [recordTrackingId], [getEmailStats]; UI.gs,
    [recordEmailOpen]).  A tracking sheet that exists but has no content
    gets no header: the row of the first token issued into it becomes row
    0, which the statistics and the recorder skip as the header.  The
    statistics still answer that there is no data, and no request ever
    marks that row opened. *)
Theorem issue_into_empty_sheet H uuid now (email sellerId : cell) :
  (generateTrackingPixel uuid now email sellerId (Some [])).1
  = Some [new_record uuid now email sellerId]
  ∧ (∀ t, getEmailStats H t (Some [new_record uuid now email sellerId])
          = StatsError "No tracking data available. Statistics will appear after emails are sent.")
  ∧ (∀ t e, doGet H t e (Some [new_record uuid now email sellerId])
            = (Some [new_record uuid now email sellerId], gif)).
Proof.
  split_and!; [done|done|]. intros t e.
  destruct (doGet_cases H t e (Some [new_record uuid now email sellerId]))
    as [->|(id & _ & _ & _ & ->)]; [done|].
  rewrite recordEmailOpen_miss; [done|].
  intros [|j] r Hj Hl; [lia|done].
Qed.

(** X13 (Email.gs, [generateTrackingPixel], [getEmailStats]).  Issuing a
    token into a sheet that has its header (or into none) makes the
    statistics count one more email; the opened emails, and the total views
    when the opened rows hold counts whose sum is within
    [MAX_SAFE_INTEGER], are as before.  In particular the first token
    issued ends the answer that there is no data. *)
Theorem issue_then_stats H uuid now t (email sellerId : cell) (st : store) :
  (∀ sh, st = Some sh → sh ≠ []) →
  ∃ s, getEmailStats H t (generateTrackingPixel uuid now email sellerId st).1 = StatsOk s
       ∧ totalEmails s = (Z.of_nat (length (drop 1 (rows_or_header st))) + 1)%Z
       ∧ openedEmails s = Z.of_nat (length (opened_rows (drop 1 (rows_or_header st))))
       ∧ ((∀ r, r ∈ drop 1 (rows_or_header st) → Opened r = CStr "Yes" → views_ok r) →
          (sum_max_views (drop 1 (rows_or_header st)) ≤ MAX_SAFE_INTEGER)%Z →
          totalViews s = Num (sum_max_views (drop 1 (rows_or_header st)))).
Proof.
  intros Hst.
  assert (Hsh : (generateTrackingPixel uuid now email sellerId st).1
                = Some (rows_or_header st ++ [new_record uuid now email sellerId])).
  { by destruct st. }
  rewrite Hsh.
  assert (Hne : rows_or_header st ≠ []) by (destruct st; [by apply Hst|done]).
  destruct (rows_or_header st) as [|hd rows]; [done|].
  change ((hd :: rows) ++ [new_record uuid now email sellerId])
    with (hd :: (rows ++ [new_record uuid now email sellerId])).
  change (drop 1 (hd :: rows)) with rows.
  assert (Hopen : opened_rows (rows ++ [new_record uuid now email sellerId])
                  = opened_rows rows).
  { unfold opened_rows. rewrite filter_app, filter_cons, decide_False by done.
    by rewrite filter_nil, app_nil_r. }
  destruct (rows ++ [new_record uuid now email sellerId]) as [|y ys] eqn:Happ.
  { by destruct rows. }
  destruct (getEmailStats_data H t hd y ys) as (s & Hs & Ht & Hop & _ & _ & Hviews).
  exists s. split_and!; [done| | |].
  - rewrite Ht, <- Happ, length_app. cbn [length]. lia.
  - by rewrite Hop, Hopen.
  - intros Hok _. rewrite Hviews.
    + unfold sum_max_views. by rewrite Hopen.
    + intros r' Hr' Hyes. rewrite <- Happ in Hr'.
      apply elem_of_app in Hr' as [Hr'|Hr'%list_elem_of_singleton]; [by apply Hok|].
      subst r'. discriminate Hyes.
Qed.

Lemma issue_then_stats_witness :
  ∃ s, getEmailStats host0 5
         (generateTrackingPixel "uuid-7" 3 (CStr "a@x.com") (CStr "S1") (Some sheet0)).1
       = StatsOk s
       ∧ totalEmails s = 3%Z ∧ openedEmails s = 1%Z ∧ totalViews s = Num 2.
Proof.
  destruct (issue_then_stats host0 "uuid-7" 3 5 (CStr "a@x.com") (CStr "S1") (Some sheet0))
    as (s & Hs & Ht & Ho & Hv).
  - intros sh [= <-]. discriminate.
  - exists s. split_and!; [exact Hs|exact Ht|exact Ho|].
    rewrite Hv; [reflexivity| |vm_compute; discriminate].
    intros r Hr _. simpl in Hr.
    apply elem_of_cons in Hr as [->|Hr]; [left; exists 0%Z; split; [reflexivity|lia]|].
    apply elem_of_cons in Hr as [->|Hr]; [left; exists 2%Z; split; [reflexivity|lia]|].
    by apply elem_of_nil in Hr.
Defined.

(** ** What the counters of a run count *)

Lemma process_row_counts H B i row s w :
  processed (process_row H B i row s w).1 = (processed s + 1)%Z
  ∧ emailsSent (process_row H B i row s w).1
    = (emailsSent s + Z.b2z (delivered row))%Z
  ∧ errors (process_row H B i row s w).1
    = (errors s + Z.b2z (undelivered row) + Z.b2z (result_not_text row))%Z
  ∧ skippedNoEmail (process_row H B i row s w).1
    = (skippedNoEmail s + Z.b2z (no_email row))%Z.
Proof.
  assert (Hsend : ∀ tpl subject,
    attempted row = true →
    result_not_text row = false → no_email row = false →
    let s' := (let '(w', emailSent) :=
                 sendNotificationEmail H (uuid_of B i) (time_of B i)
                   (render B tpl (extractRowData row)) (extractRowData row) subject w in
               (count_send {| processed := processed s + 1; emailsSent := emailsSent s;
                              errors := errors s; skippedNoEmail := skippedNoEmail s |}
                  emailSent, w')).1 in
    processed s' = (processed s + 1)%Z
    ∧ emailsSent s' = (emailsSent s + Z.b2z (delivered row))%Z
    ∧ errors s' = (errors s + Z.b2z (undelivered row) + Z.b2z (result_not_text row))%Z
    ∧ skippedNoEmail s' = (skippedNoEmail s + Z.b2z (no_email row))%Z).
  { intros tpl subject Hatt Hnt Hne.
    destruct (sendNotificationEmail_effect H (uuid_of B i) (time_of B i)
                (render B tpl (extractRowData row)) (extractRowData row) subject w)
      as (sent & -> & _ & Hto).
    cbv zeta. cbn [fst]. unfold undelivered, delivered. rewrite Hatt, Hnt, Hne.
    cbn [andb].
    assert (Hd : bool_decide (sent ≠ [])
                 = match sellerEmail (extractRowData row) with
                   | CStr e => bool_decide (valid_addresses e ≠ [])
                   | _ => false
                   end).
    { destruct (sellerEmail (extractRowData row)) as [e| | |].
      - rewrite <- Hto. by destruct sent.
      - by destruct sent.
      - by destruct sent.
      - by destruct sent. }
    rewrite <- Hd. destruct (bool_decide (sent ≠ [])); simpl; split_and!; lia. }
  unfold process_row.
  destruct (length row <=? COLUMNS.REPORT)%nat eqn:Hlen.
  { unfold undelivered, delivered, attempted, result_not_text, no_email.
    rewrite Hlen. simpl. split_and!; lia. }
  destruct (truthy (sellerEmail (extractRowData row))) eqn:Hem; cbn [negb].
  2:{ unfold undelivered, delivered, attempted, result_not_text, no_email.
      rewrite Hlen, Hem. simpl. split_and!; lia. }
  destruct (truthy (result (extractRowData row))) eqn:Hres; cbn [negb].
  2:{ assert (Hatt : attempted row = false).
      { unfold attempted. rewrite Hlen, Hem. cbn [negb andb].
        destruct (result (extractRowData row)) as [res| | |]; [|done..].
        cbn [truthy] in Hres. apply negb_false_iff, bool_decide_eq_true in Hres.
        by subst res. }
      unfold undelivered, delivered, result_not_text, no_email.
      rewrite Hatt, Hlen, Hem, Hres. simpl. split_and!; lia. }
  assert (Hne : no_email row = false) by (unfold no_email; by rewrite Hlen, Hem).
  destruct (result (extractRowData row)) as [res| | |] eqn:Hr.
  2-4: assert (Hatt : attempted row = false)
         by (unfold attempted; by rewrite Hlen, Hem, Hr);
       assert (Hnt : result_not_text row = true)
         by (unfold result_not_text; by rewrite Hlen, Hem, Hr, Hres);
       unfold undelivered, delivered; rewrite Hatt, Hnt, Hne; simpl; split_and!; lia.
  assert (Hnt : result_not_text row = false).
  { unfold result_not_text. rewrite Hr. by rewrite andb_false_r. }
  destruct (bool_decide (toLowerCase res = "passed")) eqn:Hp.
  { apply Hsend; [unfold attempted; by rewrite Hlen, Hem, Hr, Hp|done|done]. }
  destruct (bool_decide (toLowerCase res = "failed")) eqn:Hf.
  { apply Hsend; [unfold attempted; by rewrite Hlen, Hem, Hr, Hp, Hf|done|done]. }
  assert (Hatt : attempted row = false)
    by (unfold attempted; by rewrite Hlen, Hem, Hr, Hp, Hf).
  unfold undelivered, delivered. rewrite Hatt, Hnt, Hne. simpl. split_and!; lia.
Qed.

Lemma count_rows_cons f row rows :
  count_rows f (row :: rows) = (Z.b2z (f row) + count_rows f rows)%Z.
Proof.
  unfold count_rows. rewrite filter_cons.
  destruct (f row); [rewrite decide_True by done|rewrite decide_False by done];
    cbn [length Z.b2z]; lia.
Qed.

Lemma count_rows_bound f rows : (0 ≤ count_rows f rows ≤ Z.of_nat (length rows))%Z.
Proof.
  unfold count_rows. pose proof (length_filter (λ r, f r = true) rows). lia.
Qed.

Lemma process_rows_counts H B rows : ∀ i s w,
  processed (process_rows H B i rows s w).1 = (processed s + Z.of_nat (length rows))%Z
  ∧ emailsSent (process_rows H B i rows s w).1
    = (emailsSent s + count_rows delivered rows)%Z
  ∧ errors (process_rows H B i rows s w).1
    = (errors s + count_rows undelivered rows + count_rows result_not_text rows)%Z
  ∧ skippedNoEmail (process_rows H B i rows s w).1
    = (skippedNoEmail s + count_rows no_email rows)%Z.
Proof.
  induction rows as [|row rows IH]; intros i s w.
  { unfold count_rows. simpl. split_and!; lia. }
  cbn [process_rows].
  destruct (process_row_counts H B i row s w) as (Hp & Hs & He & Hk).
  destruct (process_row H B i row s w) as [s1 w1]. cbn [fst] in *.
  destruct (IH (S i) s1 w1) as (Hp' & Hs' & He' & Hk').
  rewrite Hp', Hs', He', Hk', Hp, Hs, He, Hk, !count_rows_cons. cbn [length].
  split_and!; lia.
Qed.

Lemma count_rows_attempted rows :
  (count_rows delivered rows + count_rows undelivered rows = count_rows attempted rows)%Z.
Proof.
  induction rows as [|row rows IH]; [done|].
  rewrite !count_rows_cons.
  assert (Hrow : (Z.b2z (delivered row) + Z.b2z (undelivered row)
                  = Z.b2z (attempted row))%Z).
  { unfold undelivered. destruct (delivered row) eqn:Hd.
    - unfold delivered in Hd. apply andb_true_iff in Hd as [-> _]. done.
    - by destruct (attempted row). }
  lia.
Qed.

(** X14 (Main.gs, [processData]; Email.gs, [sendNotificationEmail]).  What
    each counter of a run counts, when the templates load: [emailsSent] the
    seller rows (not the mails) that went as far as sending and had at
    least one valid address; [errors] the rows that went as far as sending
    and had none, and the rows with an email whose result is not text;
    [skippedNoEmail] the rows of five columns with nothing in the email
    column.  Rows that are too short, have no result, or a result other
    than [passed] and [failed] are in [processed] only. *)
Theorem processData_counters H B (data : list (list cell)) (w : world) :
  templates_load B = true →
  emailsSent (processData H B data w).1 = count_rows delivered (drop 1 data)
  ∧ errors (processData H B data w).1
    = (count_rows undelivered (drop 1 data) + count_rows result_not_text (drop 1 data))%Z
  ∧ skippedNoEmail (processData H B data w).1 = count_rows no_email (drop 1 data)
  ∧ (emailsSent (processData H B data w).1 + count_rows undelivered (drop 1 data)
     = count_rows attempted (drop 1 data))%Z.
Proof.
  intros Hload. unfold processData. rewrite Hload.
  destruct (process_rows_counts H B (drop HEADER_ROW_COUNT data) HEADER_ROW_COUNT
              {| processed := 0; emailsSent := 0; errors := 0; skippedNoEmail := 0 |} w)
    as (_ & Hs & He & Hk).
  rewrite Hs, He, Hk. cbn [emailsSent errors skippedNoEmail]. unfold HEADER_ROW_COUNT.
  pose proof (count_rows_attempted (drop 1 data)).
  split_and!; lia.
Qed.

Lemma processData_counters_witness :
  emailsSent (processData host0 batch0 seller_data0 world0).1 = 1%Z
  ∧ errors (processData host0 batch0 seller_data0 world0).1 = 0%Z
  ∧ skippedNoEmail (processData host0 batch0 seller_data0 world0).1 = 1%Z.
Proof.
  destruct (processData_counters host0 batch0 seller_data0 world0) as (Hs & He & Hk & _);
    [reflexivity|].
  rewrite Hs, He, Hk. vm_compute. by split_and!.
Defined.

(** ** The system test and the run *)

Lemma field_or_blank_cell_at row k :
  k < length row →
  truthy (field_or_blank row k) = truthy (cell_at row k)
  ∧ (truthy (cell_at row k) = true → field_or_blank row k = cell_at row k).
Proof.
  intros Hk. unfold field_or_blank, cell_at.
  destruct (lookup_lt_is_Some_2 row k Hk) as [c ->]. cbn [default]. unfold js_or, id.
  destruct (truthy c) eqn:Hc; [done|]. split; [reflexivity|done].
Qed.

Lemma test_row_counts row c c' :
  test_row row c = Some c' →
  result_not_text row = false
  ∧ (passedCount c ≤ passedCount c')%Z ∧ (failedCount c ≤ failedCount c')%Z
  ∧ (emailCount c + Z.b2z (attempted row) ≤ emailCount c' ≤ emailCount c + 1)%Z
  ∧ (passedCount c + failedCount c + Z.b2z (attempted row)
     ≤ passedCount c' + failedCount c' ≤ passedCount c + failedCount c + 1)%Z.
Proof.
  unfold test_row, result_not_text, attempted.
  destruct (COLUMNS.REPORT <? length row)%nat eqn:Hlen.
  2:{ apply Nat.ltb_ge in Hlen. apply Nat.leb_le in Hlen. rewrite Hlen.
      intros [= <-]. simpl. lia. }
  apply Nat.ltb_lt in Hlen.
  assert (Hle : (length row <=? COLUMNS.REPORT)%nat = false) by (by apply Nat.leb_gt).
  rewrite Hle. cbn [negb andb]. cbn [extractRowData sellerEmail result].
  destruct (field_or_blank_cell_at row COLUMNS.EMAIL) as [-> _];
    [unfold COLUMNS.EMAIL, COLUMNS.REPORT in *; lia|].
  destruct (field_or_blank_cell_at row COLUMNS.RESULT) as [-> Hres];
    [unfold COLUMNS.RESULT, COLUMNS.REPORT in *; lia|].
  destruct (truthy (cell_at row COLUMNS.RESULT)) eqn:Ht.
  2:{ intros [= <-]. rewrite andb_false_r. cbn [andb].
      destruct (field_or_blank row COLUMNS.RESULT) as [res| | |] eqn:Hf.
      - assert (Hres' : truthy (field_or_blank row COLUMNS.RESULT) = false).
        { by destruct (field_or_blank_cell_at row COLUMNS.RESULT) as [-> _];
            [unfold COLUMNS.RESULT, COLUMNS.REPORT in *; lia|]. }
        rewrite Hf in Hres'. cbn [truthy] in Hres'.
        apply negb_false_iff, bool_decide_eq_true in Hres'. subst res.
        rewrite andb_false_r. simpl. lia.
      - rewrite andb_false_r. simpl. lia.
      - rewrite andb_false_r. simpl. lia.
      - rewrite andb_false_r. simpl. lia. }
  rewrite (Hres eq_refl).
  destruct (cell_at row COLUMNS.RESULT) as [res| | |]; [|done..].
  rewrite andb_false_r.
  intros [= <-].
  destruct (truthy (cell_at row COLUMNS.EMAIL)); cbn [andb];
    destruct (bool_decide (toLowerCase res = "passed"));
    destruct (bool_decide (toLowerCase res = "failed")); simpl; lia.
Qed.

Lemma test_rows_counts rows : ∀ c c',
  test_rows rows c = Some c' →
  count_rows result_not_text rows = 0%Z
  ∧ (passedCount c ≤ passedCount c')%Z ∧ (failedCount c ≤ failedCount c')%Z
  ∧ (emailCount c + count_rows attempted rows ≤ emailCount c'
     ≤ emailCount c + Z.of_nat (length rows))%Z
  ∧ (passedCount c + failedCount c + count_rows attempted rows
     ≤ passedCount c' + failedCount c'
     ≤ passedCount c + failedCount c + Z.of_nat (length rows))%Z.
Proof.
  induction rows as [|row rows IH]; intros c c'.
  { intros [= <-]. unfold count_rows. simpl. lia. }
  cbn [test_rows]. destruct (test_row row c) as [c1|] eqn:Hrow; [|done].
  intros Hrows. apply test_row_counts in Hrow as (Hnt & ? & ? & ? & ?).
  apply IH in Hrows as (Hnts & ? & ? & ? & ?).
  rewrite !count_rows_cons, Hnt, Hnts. cbn [length Z.b2z]. lia.
Qed.

(** X15 (Main.gs, [testSystem] and [processData]).  When the system test
    gets through its counting loop, the seller sheet has no row whose
    result makes [toLowerCase] raise, and its counts bound what a run on
    the same sheet does: the rows that end in [emailsSent] or [errors] are
    exactly those that go as far as sending, and they are no more than the
    rows counted with an email, nor than the rows counted as passed or
    failed; neither count exceeds the rows after the header. *)
Theorem test_counting_bounds_run H B (data : list (list cell)) (w : world) c :
  templates_load B = true →
  test_counting data = Some c →
  (emailsSent (processData H B data w).1 + errors (processData H B data w).1
   = count_rows attempted (drop 1 data))%Z
  ∧ (count_rows attempted (drop 1 data) ≤ emailCount c ≤ Z.of_nat (length data - 1))%Z
  ∧ (count_rows attempted (drop 1 data) ≤ passedCount c + failedCount c
     ≤ Z.of_nat (length data - 1))%Z
  ∧ (0 ≤ passedCount c)%Z ∧ (0 ≤ failedCount c)%Z.
Proof.
  intros Hload. unfold test_counting.
  destruct (HEADER_ROW_COUNT <? length data)%nat; [|done].
  intros (Hnt & ? & ? & ? & ?)%test_rows_counts.
  unfold HEADER_ROW_COUNT in *. rewrite length_drop in *.
  cbn [passedCount failedCount emailCount] in *.
  unfold processData. rewrite Hload.
  destruct (process_rows_counts H B (drop HEADER_ROW_COUNT data) HEADER_ROW_COUNT
              {| processed := 0; emailsSent := 0; errors := 0; skippedNoEmail := 0 |} w)
    as (_ & Hs & He & _).
  rewrite Hs, He. unfold HEADER_ROW_COUNT. rewrite Hnt.
  cbn [emailsSent errors].
  pose proof (count_rows_attempted (drop 1 data)).
  split_and!; lia.
Qed.

Lemma test_counting_bounds_run_witness :
  test_counting seller_data0
  = Some {| passedCount := 1; failedCount := 1; emailCount := 2 |}
  ∧ (emailsSent (processData host0 batch0 seller_data0 world0).1
     + errors (processData host0 batch0 seller_data0 world0).1 = 1)%Z.
Proof.
  split; [reflexivity|].
  destruct (test_counting_bounds_run host0 batch0 seller_data0 world0
              {| passedCount := 1; failedCount := 1; emailCount := 2 |})
    as (Hrun & _); [reflexivity|reflexivity|].
  rewrite Hrun. reflexivity.
Defined.

(** ** The weekly schedule *)

(** The loop deletes from the project the triggers that share their id
    with a trigger for [main] of the list it walks. *)
Lemma delete_main_filter triggers : ∀ project,
  delete_main triggers project
  = filter (λ t', getUniqueId t' ∉ getUniqueId <$> triggers_of "main" triggers) project.
Proof.
  induction triggers as [|t triggers IH]; intros project.
  { cbn [delete_main]. induction project as [|t' project IHp]; [done|].
    rewrite filter_cons, decide_True; [by rewrite <- IHp|].
    unfold triggers_of. rewrite filter_nil. apply not_elem_of_nil. }
  cbn [delete_main]. unfold triggers_of. rewrite filter_cons.
  destruct (decide (getHandlerFunction t = "main")) as [Hm|Hm].
  - rewrite bool_decide_eq_true_2 by done. rewrite IH. unfold deleteTrigger.
    rewrite list_filter_filter. apply list_filter_iff. intros t'.
    rewrite fmap_cons, not_elem_of_cons. unfold triggers_of. tauto.
  - rewrite bool_decide_eq_false_2 by done. apply IH.
Qed.

Lemma NoDup_fmap_elem {A B} (f : A → B) (l : list A) x y :
  NoDup (f <$> l) → x ∈ l → y ∈ l → f x = f y → x = y.
Proof.
  induction l as [|z l IH]; [by intros _ ?%elem_of_nil|].
  rewrite fmap_cons, NoDup_cons, !elem_of_cons.
  intros [Hz Hl] [->|Hx] [->|Hy] Hf.
  - done.
  - destruct Hz. rewrite Hf. by apply list_elem_of_fmap_2.
  - destruct Hz. rewrite <- Hf. by apply list_elem_of_fmap_2.
  - by apply IH.
Qed.

Lemma filter_iff_elem {A} (P Q : A → Prop) `{!∀ x, Decision (P x), !∀ x, Decision (Q x)}
    (l : list A) :
  (∀ x, x ∈ l → P x ↔ Q x) → filter P l = filter Q l.
Proof.
  induction l as [|x l IH]; intros HPQ; [done|].
  rewrite !filter_cons, IH by (intros y Hy; apply HPQ; by right).
  destruct (decide (P x)) as [HP|HP].
  - rewrite decide_True; [done|]. apply HPQ; [by left|done].
  - rewrite decide_False; [done|]. intros HQ. apply HP, HPQ; [by left|done].
Qed.

Lemma delete_main_project project :
  NoDup (getUniqueId <$> project) →
  delete_main project project = triggers_but "main" project.
Proof.
  intros Hnd. rewrite delete_main_filter. unfold triggers_but.
  apply filter_iff_elem. intros t' Ht'. split.
  - intros Hnot Hm. apply Hnot, list_elem_of_fmap_2. unfold triggers_of.
    by apply list_elem_of_filter.
  - intros Hm (t & Heq & [Ht Hin]%list_elem_of_filter)%list_elem_of_fmap.
    apply Hm. by rewrite (NoDup_fmap_elem getUniqueId project t' t Hnd Ht' Hin Heq).
Qed.

(** X16 (Email.gs, [setWeeklySchedule]).  On a project whose triggers have
    distinct ids, setting the schedule leaves exactly one trigger for
    [main], the weekly one of Monday at 9, however many there were; the
    triggers of other functions are kept, in their order; and with a fresh
    id the ids stay distinct, so that this holds again after any number of
    calls. *)
Theorem setWeeklySchedule_one_main uid (project : list trigger) :
  NoDup (getUniqueId <$> project) →
  triggers_of "main" (setWeeklySchedule uid project).1
  = [Trigger uid "main" (Some (MONDAY, 9%Z))]
  ∧ triggers_but "main" (setWeeklySchedule uid project).1 = triggers_but "main" project
  ∧ (setWeeklySchedule uid project).2 = true
  ∧ (uid ∉ getUniqueId <$> project →
     NoDup (getUniqueId <$> (setWeeklySchedule uid project).1)).
Proof.
  intros Hnd. unfold setWeeklySchedule. cbn [fst snd].
  rewrite delete_main_project by done. unfold triggers_of, triggers_but.
  split_and!.
  - rewrite filter_app, list_filter_filter.
    rewrite (filter_iff_elem _ (λ _, False) project) by (intros t _; tauto).
    replace (filter (λ _ : trigger, False) project) with (@nil trigger).
    + done.
    + clear Hnd. induction project as [|t project IH]; [done|].
      by rewrite filter_cons, decide_False by tauto.
  - rewrite filter_app, list_filter_filter_l by done.
    rewrite filter_cons, decide_False by (by intros Hm; apply Hm).
    by rewrite filter_nil, app_nil_r.
  - done.
  - intros Hfresh. rewrite fmap_app. apply NoDup_app. split_and!.
    + eapply sublist_NoDup; [exact Hnd|apply fmap_sublist, sublist_filter].
    + intros x Hx [Hu|[]%elem_of_nil]%elem_of_cons. apply Hfresh.
      apply list_elem_of_fmap in Hx as (t & Hxt & [_ Ht]%list_elem_of_filter).
      cbn [getUniqueId] in Hu. rewrite <- Hu, Hxt. by apply list_elem_of_fmap_2.
    + apply NoDup_singleton.
Qed.

Lemma setWeeklySchedule_one_main_witness :
  NoDup (getUniqueId <$> project0)
  ∧ triggers_of "main" (setWeeklySchedule "t4" project0).1
    = [Trigger "t4" "main" (Some (MONDAY, 9%Z))]
  ∧ triggers_but "main" (setWeeklySchedule "t4" project0).1
    = [Trigger "t2" "showEmailStats" None].
Proof.
  assert (Hnd : NoDup (getUniqueId <$> project0)).
  { apply (bool_decide_unpack _). vm_compute. exact I. }
  destruct (setWeeklySchedule_one_main "t4" project0 Hnd) as (Hm & Hb & _).
  split_and!; [exact Hnd|exact Hm|exact Hb].
Defined.

(** ** What overlapping hits leave alone *)

Section Frame.
Context (H : Host) (sh0 : list row) (ids : list string).

Lemma set_column_identity c v r :
  c = 5 ∨ c = 6 ∨ c = 7 → identity (set_column c v r) = identity r.
Proof. by intros [->|[->| ->]]. Qed.

Lemma frame_step c c' :
  sheet_frame sh0 ids c.1 → Forall (pending_ok sh0 ids) c.2 → step H c c' →
  sheet_frame sh0 ids c'.1 ∧ Forall (pending_ok sh0 ids) c'.2.
Proof.
  intros Hsh Hts Hstep.
  destruct Hstep as [sh ts1 ts2 now id|sh ts1 ts2 w ws]; cbn [fst snd] in *;
    apply Forall_app in Hts as [Hts1 Hts]; apply Forall_cons in Hts as [Hthis Hts2].
  - (* an execution reads the sheet *)
    split; [done|]. apply Forall_app; split; [done|]. apply Forall_cons; split; [|done].
    cbn [pending_ok] in *.
    destruct (hit_or_miss id sh) as [Hno|(j & r & Hf)].
    { by rewrite snapshot_miss. }
    rewrite (snapshot_hit H now id sh j r Hf).
    destruct Hf as (Hj & Hl & Ht & _). destruct Hsh as [Hlen Hrows].
    assert (Hlt : j < length sh0) by (rewrite <- Hlen; by eapply lookup_lt_Some).
    destruct (lookup_lt_is_Some_2 sh0 j Hlt) as [r0 Hr0].
    destruct (Hrows j r0 Hr0) as (r' & Hl' & Hid & _).
    assert (r' = r) as -> by congruence.
    assert (Ht0 : TrackingID r0 = CStr id).
    { unfold identity in Hid. injection Hid as <- _ _ _. done. }
    unfold row_writes. destruct (strict_eq_string (Opened r) "No").
    + apply Forall_cons; split; [|apply Forall_cons; split; [|done]].
      * exists j, 5, (CDate now), r0, id. split_and!; auto.
      * exists j, 6, (CStr "Yes"), r0, id. split_and!; auto.
    + apply Forall_cons; split; [|done].
      exists j, 7, (js_plus_one H (js_or (Views r) (CNum 0))), r0, id. split_and!; auto.
  - (* an execution makes its next write *)
    cbn [pending_ok] in Hthis. apply Forall_cons in Hthis as [Hw Hws].
    split; [|apply Forall_app; split; [done|]; by apply Forall_cons].
    destruct Hw as (j & c & v & r0 & id & -> & Hj & Hc & Hr0 & Hid & Ht0).
    rewrite Nat.add_1_r. cbn [apply_write].
    destruct Hsh as [Hlen Hrows]. split; [by rewrite length_alter|].
    intros k rk Hk. destruct (Hrows k rk Hk) as (r & Hl & Hident & Hsame).
    destruct (decide (j = k)) as [->|Hne].
    + exists (set_column c v r). rewrite list_lookup_alter_eq, Hl. split_and!; [done| |].
      * by rewrite set_column_identity.
      * intros [->|Hnone]; [lia|].
        assert (rk = r0) as -> by congruence. by destruct (Hnone id Hid).
    + exists r. by rewrite list_lookup_alter_ne.
Qed.

Lemma frame_rtc c c' :
  rtc (step H) c c' →
  sheet_frame sh0 ids c.1 → Forall (pending_ok sh0 ids) c.2 →
  sheet_frame sh0 ids c'.1.
Proof.
  induction 1 as [|c1 c2 c3 Hs _ IH]; [done|]. intros Hsh Hts.
  destruct (frame_step c1 c2 Hsh Hts Hs) as [Hsh2 Hts2]. by apply IH.
Qed.
End Frame.

(** X17 (UI.gs, [recordEmailOpen]).  Executions for any tokens that
    overlap, in any interleaving of their reads and writes, and at any
    moment of it: the sheet keeps its number of rows and its header; every
    row keeps its token, email, seller and send date; and a row whose token
    was not requested keeps all its cells. *)
Theorem overlapping_hits_frame H (reqs : list (Z * string)) (sh sh' : list row) ts' :
  rtc (step H) (sh, started_all reqs) (sh', ts') →
  length sh' = length sh
  ∧ sh' !! 0 = sh !! 0
  ∧ ∀ j r, sh !! j = Some r →
      ∃ r', sh' !! j = Some r'
            ∧ TrackingID r' = TrackingID r ∧ Email r' = Email r
            ∧ SellerID r' = SellerID r ∧ SendDate r' = SendDate r
            ∧ ((∀ q, q ∈ reqs → TrackingID r ≠ CStr q.2) → r' = r).
Proof.
  intros Hrun.
  assert (Hframe : sheet_frame sh (snd <$> reqs) sh').
  { apply (frame_rtc H sh (snd <$> reqs) _ _ Hrun); cbn [fst snd].
    - split; [done|]. intros j r0 Hj. by exists r0.
    - unfold started_all. apply Forall_fmap, Forall_forall. intros q Hq.
      cbn [pending_ok]. by apply list_elem_of_fmap_2. }
  destruct Hframe as [Hlen Hrows]. split_and!; [done| |].
  - destruct (sh !! 0) as [hd|] eqn:Hhd.
    + destruct (Hrows 0 hd Hhd) as (r & -> & _ & Hsame). f_equal. apply Hsame. by left.
    + apply lookup_ge_None. apply lookup_ge_None in Hhd. lia.
  - intros j r Hj. destruct (Hrows j r Hj) as (r' & Hl & Hid & Hsame).
    exists r'. unfold identity in Hid. injection Hid as ? ? ? ?.
    split_and!; [done..|]. intros Hnone. apply Hsame. right.
    intros id (q & -> & Hq)%list_elem_of_fmap. by apply Hnone.
Qed.

Lemma overlapping_hits_frame_witness :
  rtc (step host0) (sheet0, started_all [(10%Z, "tok-1"); (20%Z, "tok-1")])
      (sheet_raced, [Writing []; Writing []])
  ∧ length sheet_raced = length sheet0
  ∧ sheet_raced !! 0 = sheet0 !! 0
  ∧ sheet_raced !! 2 = Some (record0 "tok-2" "Yes" 2).
Proof.
  split; [exact racy_run|].
  destruct (overlapping_hits_frame host0 [(10%Z, "tok-1"); (20%Z, "tok-1")]
              sheet0 sheet_raced [Writing []; Writing []] racy_run)
    as (Hlen & Hhd & Hrows).
  split_and!; [exact Hlen|exact Hhd|].
  destruct (Hrows 2 (record0 "tok-2" "Yes" 2) eq_refl) as (r' & Hl & _ & _ & _ & _ & Hsame).
  rewrite Hl. f_equal. apply Hsame.
  intros q [->|[->|[]%elem_of_nil]%elem_of_cons]%elem_of_cons; discriminate.
Defined.
